(** * App.tsx: the image-to-video component as an event-driven state machine

    The component of [src/App.tsx] is embedded as a total step function on a
    world made of the React state, the closure captured by [useCallback], the
    browser's registry of object URLs, the suspended [handleGenerateVideo]
    invocations and the log of calls issued to the outside.  Every [await] of
    the source is a suspension point: the segment of code up to the next
    [await] runs when the event that settles the pending promise arrives. *)

From Stdlib Require Import ZArith Lia.
From Stdlib Require Ascii String.
From stdpp Require Import base decidable option list strings.

Local Open Scope Z_scope.
Local Open Scope nat_scope.

(** ** JavaScript values used by the component *)

Module Js.

(** [!s] on a string: only the empty string is falsy. *)
Definition truthy (s : string) : bool := negb (String.eqb s "").

(** Truthiness of a possibly [undefined] string. *)
Definition truthyOpt (o : option string) : bool :=
  match o with
  | Some s => truthy s
  | None => false
  end.

(** [hay.includes(needle)]. *)
Fixpoint includes (needle hay : string) : bool :=
  String.prefix needle hay ||
  match hay with
  | EmptyString => false
  | String _ rest => includes needle rest
  end.

(** Whether character [c] occurs in [s]. *)
Fixpoint occurs (c : Ascii.ascii) (s : string) : bool :=
  match s with
  | EmptyString => false
  | String d rest => Ascii.eqb c d || occurs c rest
  end.

(** [arr.indexOf(x)] counted from [from]: the first position holding [x],
    [-1] when there is none. *)
Fixpoint indexOfFrom (from : Z) (arr : list string) (x : string) : Z :=
  match arr with
  | [] => (-1)%Z
  | y :: rest => if String.eqb y x then from else indexOfFrom (from + 1)%Z rest x
  end.

Definition indexOf (arr : list string) (x : string) : Z := indexOfFrom 0%Z arr x.

(** [arr[i]]: [undefined] outside the array. *)
Definition get {A} (arr : list A) (i : Z) : option A :=
  if (i <? 0)%Z then None else arr !! Z.to_nat i.

(** [a % b] of JavaScript truncates towards zero, as [Z.rem] does. *)
Definition rem (a b : Z) : Z := Z.rem a b.

(** The separator of [split(',')]: character 44. *)
Definition comma : Ascii.ascii := Ascii.ascii_of_nat 44.

(** [s.split(',')[1]]: the text between the first and the second comma,
    [undefined] when [s] has no comma. *)
Fixpoint untilComma (s : string) : string :=
  match s with
  | EmptyString => EmptyString
  | String c rest =>
      if Ascii.eqb c comma then EmptyString else String c (untilComma rest)
  end.

Fixpoint splitComma1 (s : string) : option string :=
  match s with
  | EmptyString => None
  | String c rest =>
      if Ascii.eqb c comma then Some (untilComma rest) else splitComma1 rest
  end.

(** What a [throw] or a rejected promise carries: an [Error] instance with
    its [message], or any other value. *)
Inductive Thrown :=
| ThrownError (message : string)
| ThrownOther.

(** The result of a call that may throw, or of a promise that settles. *)
Inductive Outcome (A : Type) :=
| Returned (a : A)
| Threw (e : Thrown).
Arguments Returned {A} a.
Arguments Threw {A} e.

End Js.
Export Js (Thrown(..), Outcome(..)).

(** ** The rotating loading message (lines 34-40 and 73-84) *)

Definition loadingMessages : list string :=
  [ "Warming up the creative engines...";
    "Gathering pixels and inspiration...";
    "This can take a few minutes, great art needs patience.";
    "Composing your video masterpiece...";
    "Finalizing the special effects..." ].

(** The updater passed to [setLoadingMessage] by the interval callback. *)
Definition nextLoadingMessage (prev : string) : option string :=
  let currentIndex := Js.indexOf loadingMessages prev in
  let nextIndex := Js.rem (currentIndex + 1)%Z (Z.of_nat (length loadingMessages)) in
  Js.get loadingMessages nextIndex.

(** ** Data of the component *)

Inductive AspectRatio := Ratio16x9 | Ratio9x16.

(** A [File] chosen by the user.  React compares state by object identity,
    which [fileRef] stands for. *)
Record File := { fileRef : nat; fileType : string; fileData : string }.

Definition Blob := string.

(** An object URL made by [URL.createObjectURL], named by its serial number. *)
Definition ObjectUrl := nat.

(** The two places of the component that hold an object URL:
    [imagePreview] and [generatedVideoUrl]. *)
Inductive Slot := Preview | Result.

(** A live entry of the browser's object-URL registry.  [urlSlot] records
    which call site made the URL (line 110 or line 157). *)
Record UrlEntry := { urlId : ObjectUrl; urlSlot : Slot; urlBlob : Blob }.

#[global] Instance AspectRatio_eq_dec : EqDecision AspectRatio.
Proof. solve_decision. Defined.
#[global] Instance File_eq_dec : EqDecision File.
Proof. solve_decision. Defined.
#[global] Instance Slot_eq_dec : EqDecision Slot.
Proof. solve_decision. Defined.

(** The long-running operation returned by the generation service, with the
    optional chain [operation.response?.generatedVideos?.[0]?.video?.uri]. *)
Record Video := { uri : option string }.
Record GeneratedVideo := { video : option Video }.
Record GenerateVideosResponse := { generatedVideos : option (list GeneratedVideo) }.
Record Operation := {
  opName : string;
  done : option bool;
  response : option GenerateVideosResponse }.

(** [operation.done] as a condition: [undefined] is falsy. *)
Definition isDone (operation : Operation) : bool :=
  match done operation with
  | Some b => b
  | None => false
  end.

Definition videoUriOf (operation : Operation) : option string :=
  match response operation with
  | Some r =>
      match generatedVideos r with
      | Some (g :: _) =>
          match video g with
          | Some v => uri v
          | None => None
          end
      | _ => None
      end
  | None => None
  end.

Record GenerateVideosParams := {
  model : string;
  paramPrompt : string;
  imageBytes : option string;
  mimeType : string;
  numberOfVideos : nat;
  resolution : string;
  paramAspectRatio : AspectRatio }.

Record FetchResponse := { ok : bool; statusText : string }.

(** What [FileReader.readAsDataURL] ends with: [onload] with the data URL, or
    [onerror]. *)
Inductive ReadOutcome :=
| Loaded (result : string)
| ReadFailed.

(** Calls the component issues to the browser and to the remote service, in
    the order they are made. *)
Inductive Call :=
| CallHasSelectedApiKey
| CallOpenSelectKey
| CallReadAsDataURL (file : File)
| CallGenerateVideos (params : GenerateVideosParams)
| CallSetTimeout (ms : Z)
| CallGetVideosOperation (operation : Operation)
| CallFetch (url : string)
| CallBlob
| CallCreateObjectURL (slot : Slot) (url : ObjectUrl)
| CallRevokeObjectURL (url : ObjectUrl)
| CallConsoleError (err : Thrown).

(** The state variables of [App] (lines 44-52). *)
Record AppState := {
  apiKeySelected : option bool;
  imageFile : option File;
  imagePreview : option ObjectUrl;
  prompt : string;
  aspectRatio : AspectRatio;
  isLoading : bool;
  (* typed [string]; at run time it holds what the updater of lines 76-80
     returned, which for an array read may be [undefined] *)
  loadingMessage : option string;
  generatedVideoUrl : option ObjectUrl;
  error : option string }.

Definition setApiKeySelected (v : option bool) (s : AppState) : AppState :=
  {| apiKeySelected := v; imageFile := imageFile s; imagePreview := imagePreview s;
     prompt := prompt s; aspectRatio := aspectRatio s; isLoading := isLoading s;
     loadingMessage := loadingMessage s; generatedVideoUrl := generatedVideoUrl s;
     error := error s |}.

Definition setImageFile (v : option File) (s : AppState) : AppState :=
  {| apiKeySelected := apiKeySelected s; imageFile := v; imagePreview := imagePreview s;
     prompt := prompt s; aspectRatio := aspectRatio s; isLoading := isLoading s;
     loadingMessage := loadingMessage s; generatedVideoUrl := generatedVideoUrl s;
     error := error s |}.

Definition setImagePreview (v : option ObjectUrl) (s : AppState) : AppState :=
  {| apiKeySelected := apiKeySelected s; imageFile := imageFile s; imagePreview := v;
     prompt := prompt s; aspectRatio := aspectRatio s; isLoading := isLoading s;
     loadingMessage := loadingMessage s; generatedVideoUrl := generatedVideoUrl s;
     error := error s |}.

Definition setPrompt (v : string) (s : AppState) : AppState :=
  {| apiKeySelected := apiKeySelected s; imageFile := imageFile s;
     imagePreview := imagePreview s; prompt := v; aspectRatio := aspectRatio s;
     isLoading := isLoading s; loadingMessage := loadingMessage s;
     generatedVideoUrl := generatedVideoUrl s; error := error s |}.

Definition setAspectRatio (v : AspectRatio) (s : AppState) : AppState :=
  {| apiKeySelected := apiKeySelected s; imageFile := imageFile s;
     imagePreview := imagePreview s; prompt := prompt s; aspectRatio := v;
     isLoading := isLoading s; loadingMessage := loadingMessage s;
     generatedVideoUrl := generatedVideoUrl s; error := error s |}.

Definition setIsLoading (v : bool) (s : AppState) : AppState :=
  {| apiKeySelected := apiKeySelected s; imageFile := imageFile s;
     imagePreview := imagePreview s; prompt := prompt s; aspectRatio := aspectRatio s;
     isLoading := v; loadingMessage := loadingMessage s;
     generatedVideoUrl := generatedVideoUrl s; error := error s |}.

Definition setLoadingMessage (v : option string) (s : AppState) : AppState :=
  {| apiKeySelected := apiKeySelected s; imageFile := imageFile s;
     imagePreview := imagePreview s; prompt := prompt s; aspectRatio := aspectRatio s;
     isLoading := isLoading s; loadingMessage := v;
     generatedVideoUrl := generatedVideoUrl s; error := error s |}.

Definition setGeneratedVideoUrl (v : option ObjectUrl) (s : AppState) : AppState :=
  {| apiKeySelected := apiKeySelected s; imageFile := imageFile s;
     imagePreview := imagePreview s; prompt := prompt s; aspectRatio := aspectRatio s;
     isLoading := isLoading s; loadingMessage := loadingMessage s;
     generatedVideoUrl := v; error := error s |}.

Definition setError (v : option string) (s : AppState) : AppState :=
  {| apiKeySelected := apiKeySelected s; imageFile := imageFile s;
     imagePreview := imagePreview s; prompt := prompt s; aspectRatio := aspectRatio s;
     isLoading := isLoading s; loadingMessage := loadingMessage s;
     generatedVideoUrl := generatedVideoUrl s; error := v |}.

(** The initial values given to [useState]. *)
Definition initialState : AppState :=
  {| apiKeySelected := None; imageFile := None; imagePreview := None;
     prompt := "uma pessoa com malas atravessando a ponte da amizade do brasil para o paraguai";
     aspectRatio := Ratio16x9; isLoading := false;
     loadingMessage := Js.get loadingMessages 0%Z;
     generatedVideoUrl := None; error := None |}.

(** ** Suspended invocations of [handleGenerateVideo] *)

(** The [await] an invocation is suspended at. *)
Inductive Phase :=
| AwaitEncode                         (* line 129: fileToBase64(imageFile) *)
| AwaitSubmit                         (* line 131: ai.models.generateVideos *)
| AwaitTimer (operation : Operation)  (* line 146: setTimeout(resolve, 10000) *)
| AwaitPoll                           (* line 147: ai.operations.getVideosOperation *)
| AwaitFetch                          (* line 152: fetch *)
| AwaitBlob                           (* line 156: videoResponse.blob() *)
| Finished.

(** An invocation: the values its closure holds and where it is suspended. *)
Record Task := {
  closureFile : File;
  closurePrompt : string;
  closureAspect : AspectRatio;
  phase : Phase }.

Definition setPhase (p : Phase) (t : Task) : Task :=
  {| closureFile := closureFile t; closurePrompt := closurePrompt t;
     closureAspect := closureAspect t; phase := p |}.

Definition inFlight (t : Task) : bool :=
  match phase t with
  | Finished => false
  | _ => true
  end.

(** The settling of the promise an invocation awaits. *)
Inductive Settlement :=
| Encoded (r : ReadOutcome)
| Submitted (r : Outcome Operation)
| TimerFired
| Polled (r : Outcome Operation)
| Fetched (r : Outcome FetchResponse)
| BlobRead (r : Outcome Blob).

(** ** The world *)

Record World := {
  st : AppState;
  (* [generatedVideoUrl] as seen by the memoized [handleGenerateVideo]: its
     dependency list is [imageFile, prompt, aspectRatio] (line 175) *)
  capturedVideoUrl : option ObjectUrl;
  objectUrls : list UrlEntry;
  nextUrlId : nat;
  tasks : list Task;
  keyCheckPending : bool;
  selectKeyPending : nat;
  calls : list Call }.

Definition setState (f : AppState -> AppState) (w : World) : World :=
  {| st := f (st w); capturedVideoUrl := capturedVideoUrl w;
     objectUrls := objectUrls w; nextUrlId := nextUrlId w; tasks := tasks w;
     keyCheckPending := keyCheckPending w; selectKeyPending := selectKeyPending w;
     calls := calls w |}.

Definition setCaptured (v : option ObjectUrl) (w : World) : World :=
  {| st := st w; capturedVideoUrl := v;
     objectUrls := objectUrls w; nextUrlId := nextUrlId w; tasks := tasks w;
     keyCheckPending := keyCheckPending w; selectKeyPending := selectKeyPending w;
     calls := calls w |}.

Definition emit (c : Call) (w : World) : World :=
  {| st := st w; capturedVideoUrl := capturedVideoUrl w;
     objectUrls := objectUrls w; nextUrlId := nextUrlId w; tasks := tasks w;
     keyCheckPending := keyCheckPending w; selectKeyPending := selectKeyPending w;
     calls := calls w ++ [c] |}.

Definition setTasks (ts : list Task) (w : World) : World :=
  {| st := st w; capturedVideoUrl := capturedVideoUrl w;
     objectUrls := objectUrls w; nextUrlId := nextUrlId w; tasks := ts;
     keyCheckPending := keyCheckPending w; selectKeyPending := selectKeyPending w;
     calls := calls w |}.

Definition setKeyCheckPending (b : bool) (w : World) : World :=
  {| st := st w; capturedVideoUrl := capturedVideoUrl w;
     objectUrls := objectUrls w; nextUrlId := nextUrlId w; tasks := tasks w;
     keyCheckPending := b; selectKeyPending := selectKeyPending w;
     calls := calls w |}.

Definition setSelectKeyPending (n : nat) (w : World) : World :=
  {| st := st w; capturedVideoUrl := capturedVideoUrl w;
     objectUrls := objectUrls w; nextUrlId := nextUrlId w; tasks := tasks w;
     keyCheckPending := keyCheckPending w; selectKeyPending := n;
     calls := calls w |}.

(** [URL.createObjectURL(blob)]: a fresh URL enters the registry. *)
Definition createObjectURL (slot : Slot) (blob : Blob) (w : World) : World :=
  {| st := st w; capturedVideoUrl := capturedVideoUrl w;
     objectUrls := objectUrls w ++ [{| urlId := nextUrlId w; urlSlot := slot; urlBlob := blob |}];
     nextUrlId := S (nextUrlId w); tasks := tasks w;
     keyCheckPending := keyCheckPending w; selectKeyPending := selectKeyPending w;
     calls := calls w ++ [CallCreateObjectURL slot (nextUrlId w)] |}.

(** [URL.revokeObjectURL(url)]: the URL leaves the registry. *)
Definition revokeObjectURL (url : ObjectUrl) (w : World) : World :=
  {| st := st w; capturedVideoUrl := capturedVideoUrl w;
     objectUrls := filter (fun e => urlId e <> url) (objectUrls w);
     nextUrlId := nextUrlId w; tasks := tasks w;
     keyCheckPending := keyCheckPending w; selectKeyPending := selectKeyPending w;
     calls := calls w ++ [CallRevokeObjectURL url] |}.

(** The object URLs of a registry that were made for a slot. *)
Definition idsIn (slot : Slot) (urls : list UrlEntry) : list ObjectUrl :=
  urlId <$> filter (fun e => urlSlot e = slot) urls.

(** The live object URLs made for a slot. *)
Definition liveIn (slot : Slot) (w : World) : list ObjectUrl :=
  idsIn slot (objectUrls w).

(** ** The environment the bundle runs in *)

Record Env := {
  (* [process.env.API_KEY] *)
  API_KEY : option string;
  (* [new GoogleGenAI({ apiKey })]: [Some e] when the constructor throws [e] *)
  newGoogleGenAI : option string -> option Thrown;
  (* [window.aistudio] with its two functions is present *)
  aistudio : bool }.

(** ** Events *)

Inductive Event :=
| EvKeyChecked (r : Outcome bool)       (* hasSelectedApiKey() settles *)
| EvSelectKeyClick                      (* "Select API Key" *)
| EvKeySelected (r : Outcome unit)      (* openSelectKey() settles *)
| EvImageChange (file : option File)    (* onChange of the file input *)
| EvPromptChange (value : string)
| EvAspectChange (ratio : AspectRatio)
| EvGenerateClick                       (* "Generate Video" *)
| EvCreateAnotherClick                  (* "Create Another" *)
| EvInterval                            (* the 3000 ms interval fires *)
| EvSettle (i : nat) (s : Settlement).  (* the promise invocation [i] awaits settles *)

(** What [renderContent] shows (lines 179-303). *)
Inductive View := SpinnerView | KeyRequiredView | LoadingView | VideoView | FormView.

Definition renderContent (s : AppState) : View :=
  match apiKeySelected s with
  | None => SpinnerView
  | Some false => KeyRequiredView
  | Some true =>
      if isLoading s then LoadingView
      else if bool_decide (is_Some (generatedVideoUrl s)) then VideoView
      else FormView
  end.

(** [isGenerateDisabled] (line 177). *)
Definition isGenerateDisabled (s : AppState) : bool :=
  isLoading s || negb (bool_decide (is_Some (imageFile s))) || negb (Js.truthy (prompt s)).

Definition isFormView (s : AppState) : bool :=
  match renderContent s with
  | FormView => true
  | _ => false
  end.

(** Whether the rendered page lets the event happen: a control has to be on
    the page (and not disabled) to be used; promises and timers settle
    whatever is shown. *)
Definition enabled (ev : Event) (s : AppState) : bool :=
  match ev with
  | EvSelectKeyClick =>
      match renderContent s with KeyRequiredView => true | _ => false end
  | EvImageChange _ =>
      isFormView s && negb (bool_decide (is_Some (imagePreview s)))
  | EvPromptChange _ | EvAspectChange _ => isFormView s
  | EvGenerateClick => isFormView s && negb (isGenerateDisabled s)
  | EvCreateAnotherClick =>
      match renderContent s with VideoView => true | _ => false end
  | EvKeyChecked _ | EvKeySelected _ | EvInterval | EvSettle _ _ => true
  end.

(** ** The handlers *)

Definition entityNotFound : string := "Requested entity was not found".

(** [err instanceof Error ? err.message : "An unknown error occurred."] *)
Definition errorMessageOf (err : Thrown) : string :=
  match err with
  | ThrownError message => message
  | ThrownOther => "An unknown error occurred."
  end.

(** The [catch] block of [handleGenerateVideo] (lines 163-171). *)
Definition catchBlock (err : Thrown) (w : World) : World :=
  let errorMessage := errorMessageOf err in
  let w := emit (CallConsoleError err) w in
  if Js.includes entityNotFound errorMessage then
    setState (setApiKeySelected (Some false))
      (setState (setError (Some "Your API key is invalid or not configured. Please select a valid key.")) w)
  else
    setState (setError (Some ("Failed to generate video: " +:+ errorMessage))) w.

(** The [finally] block (lines 172-174). *)
Definition finallyBlock (w : World) : World := setState (setIsLoading false) w.

(** What a stretch of the [try] block, run from one [await] to the next,
    ends with. *)
Inductive Segment :=
| Suspend (c : Call) (p : Phase)   (* a call is made and its promise awaited *)
| Complete (videoBlob : Blob)      (* the end of the [try] block is reached *)
| Raise (e : Thrown).              (* an exception leaves the [try] block *)

Section Component.

Variable env : Env.

(** Lines 150-161, up to the [await] of [fetch]. *)
Definition afterLoop (operation : Operation) : Segment :=
  let videoUri := videoUriOf operation in
  match videoUri, API_KEY env with
  | Some u, Some k =>
      if Js.truthy u && Js.truthy k then
        Suspend (CallFetch (u +:+ "&key=" +:+ k)) AwaitFetch
      else
        Raise (ThrownError "Video generation completed, but no video URI was found.")
  | _, _ =>
      Raise (ThrownError "Video generation completed, but no video URI was found.")
  end.

(** The test of the [while] loop (line 145) with what follows it. *)
Definition whileLoop (operation : Operation) : Segment :=
  if negb (isDone operation) then
    Suspend (CallSetTimeout 10000%Z) (AwaitTimer operation)
  else afterLoop operation.

(** The stretch of the [try] block that runs when the awaited promise
    settles; [None] when the settlement is not the one awaited. *)
Definition resume (t : Task) (s : Settlement) : option Segment :=
  match phase t, s with
  | AwaitEncode, Encoded (Loaded result) =>
      let imageBase64 := Js.splitComma1 result in
      Some (Suspend
              (CallGenerateVideos
                 {| model := "veo-3.1-fast-generate-preview";
                    paramPrompt := closurePrompt t;
                    imageBytes := imageBase64;
                    mimeType := fileType (closureFile t);
                    numberOfVideos := 1;
                    resolution := "720p";
                    paramAspectRatio := closureAspect t |})
              AwaitSubmit)
  | AwaitEncode, Encoded ReadFailed => Some (Raise ThrownOther)
  | AwaitSubmit, Submitted (Returned operation) => Some (whileLoop operation)
  | AwaitSubmit, Submitted (Threw e) => Some (Raise e)
  | AwaitTimer operation, TimerFired =>
      Some (Suspend (CallGetVideosOperation operation) AwaitPoll)
  | AwaitPoll, Polled (Returned operation) => Some (whileLoop operation)
  | AwaitPoll, Polled (Threw e) => Some (Raise e)
  | AwaitFetch, Fetched (Returned videoResponse) =>
      if negb (ok videoResponse) then
        Some (Raise (ThrownError ("Failed to fetch video: " +:+ statusText videoResponse)))
      else Some (Suspend CallBlob AwaitBlob)
  | AwaitFetch, Fetched (Threw e) => Some (Raise e)
  | AwaitBlob, BlobRead (Returned videoBlob) => Some (Complete videoBlob)
  | AwaitBlob, BlobRead (Threw e) => Some (Raise e)
  | _, _ => None
  end.

(** The rest of the handler around a stretch: suspension at the next
    [await], lines 157-158 followed by [finally], or [catch] followed by
    [finally]. *)
Definition settle (i : nat) (t : Task) (seg : Segment) (w : World) : World :=
  match seg with
  | Suspend c p => setTasks (<[i := setPhase p t]> (tasks w)) (emit c w)
  | Complete videoBlob =>
      let objectUrl := nextUrlId w in
      let w := createObjectURL Result videoBlob w in
      let w := setState (setGeneratedVideoUrl (Some objectUrl)) w in
      setTasks (<[i := setPhase Finished t]> (tasks w)) (finallyBlock w)
  | Raise e =>
      setTasks (<[i := setPhase Finished t]> (tasks w)) (finallyBlock (catchBlock e w))
  end.

Definition handleSettle (i : nat) (s : Settlement) (w : World) : World :=
  match tasks w !! i with
  | Some t =>
      match resume t s with
      | Some seg => settle i t seg w
      | None => w
      end
  | None => w
  end.

(** [handleGenerateVideo] up to its first [await] (lines 115-129). *)
Definition handleGenerateVideo (w : World) : World :=
  let invalid :=
    setState (setError (Some "Please upload an image and provide a prompt.")) w in
  match imageFile (st w) with
  | Some file =>
      if negb (Js.truthy (prompt (st w))) then invalid
      else
        let w1 := setState (setError None) (setState (setIsLoading true) w) in
        let w2 :=
          if bool_decide (is_Some (capturedVideoUrl w)) then
            setState (setGeneratedVideoUrl None) w1
          else w1 in
        match newGoogleGenAI env (API_KEY env) with
        | Some e => finallyBlock (catchBlock e w2)
        | None =>
            let t := {| closureFile := file; closurePrompt := prompt (st w);
                        closureAspect := aspectRatio (st w); phase := AwaitEncode |} in
            setTasks (tasks w2 ++ [t]) (emit (CallReadAsDataURL file) w2)
        end
  | None => invalid
  end.

(** [handleImageChange] (lines 103-113). *)
Definition handleImageChange (file : option File) (w : World) : World :=
  match file with
  | Some f =>
      let w1 :=
        if bool_decide (is_Some (generatedVideoUrl (st w))) then
          setState (setGeneratedVideoUrl None) w
        else w in
      let w2 := setState (setImageFile (Some f)) w1 in
      let previewUrl := nextUrlId w2 in
      let w3 := createObjectURL Preview (fileData f) w2 in
      setState (setImagePreview (Some previewUrl)) w3
  | None => w
  end.

(** The [onClick] of "Create Another" (lines 223-227). *)
Definition handleCreateAnother (w : World) : World :=
  setState (setImagePreview None)
    (setState (setImageFile None) (setState (setGeneratedVideoUrl None) w)).

(** [handleSelectKey] up to its [await] (lines 95-97). *)
Definition handleSelectKey (w : World) : World :=
  if aistudio env then
    setSelectKeyPending (S (selectKeyPending w)) (emit CallOpenSelectKey w)
  else w.

(** After [await window.aistudio.openSelectKey()] (line 99); a rejection
    leaves [handleSelectKey], which has no [try]. *)
Definition handleKeySelected (r : Outcome unit) (w : World) : World :=
  match selectKeyPending w with
  | S n =>
      let w := setSelectKeyPending n w in
      match r with
      | Returned _ => setState (setApiKeySelected (Some true)) w
      | Threw _ => w
      end
  | O => w
  end.

(** [checkKey] after its [await] (lines 58-68). *)
Definition handleKeyChecked (r : Outcome bool) (w : World) : World :=
  if keyCheckPending w then
    let w := setKeyCheckPending false w in
    match r with
    | Returned hasKey => setState (setApiKeySelected (Some hasKey)) w
    | Threw err =>
        setState (setApiKeySelected (Some true))
          (setState (setError (Some "Could not verify API key status. Assuming key is present."))
             (emit (CallConsoleError err) w))
    end
  else w.

(** The updater of lines 76-80 on what the state holds: [indexOf] finds
    [undefined] nowhere in the list. *)
Definition loadingMessageUpdater (prev : option string) : option string :=
  match prev with
  | Some message => nextLoadingMessage message
  | None =>
      let currentIndex := (-1)%Z in
      let nextIndex := Js.rem (currentIndex + 1)%Z (Z.of_nat (length loadingMessages)) in
      Js.get loadingMessages nextIndex
  end.

(** The interval callback (lines 75-81): the state takes whatever the
    updater returns; the interval exists while [isLoading] holds. *)
Definition handleInterval (w : World) : World :=
  if isLoading (st w) then
    setState (setLoadingMessage (loadingMessageUpdater (loadingMessage (st w)))) w
  else w.

Definition handle (ev : Event) (w : World) : World :=
  match ev with
  | EvKeyChecked r => handleKeyChecked r w
  | EvSelectKeyClick => handleSelectKey w
  | EvKeySelected r => handleKeySelected r w
  | EvImageChange file => handleImageChange file w
  | EvPromptChange value => setState (setPrompt value) w
  | EvAspectChange ratio => setState (setAspectRatio ratio) w
  | EvGenerateClick => handleGenerateVideo w
  | EvCreateAnotherClick => handleCreateAnother w
  | EvInterval => handleInterval w
  | EvSettle i s => handleSettle i s w
  end.

(** The cleanup of the effect on [generatedVideoUrl] (lines 86-93): it runs
    with the value of the previous render when the value has changed. *)
Definition videoUrlCleanup (prev : AppState) (w : World) : World :=
  if bool_decide (generatedVideoUrl prev = generatedVideoUrl (st w)) then w
  else
    match generatedVideoUrl prev with
    | Some urlToRevoke => revokeObjectURL urlToRevoke w
    | None => w
    end.

(** [useCallback] (line 175) keeps the previous function, and the
    [generatedVideoUrl] it closed over, unless a dependency has changed. *)
Definition recapture (prev : AppState) (w : World) : World :=
  if bool_decide (imageFile prev = imageFile (st w) /\
                  prompt prev = prompt (st w) /\
                  aspectRatio prev = aspectRatio (st w))
  then w
  else setCaptured (generatedVideoUrl (st w)) w.

(** Re-rendering after a handler has run. *)
Definition commit (prev : AppState) (w : World) : World :=
  recapture prev (videoUrlCleanup prev w).

Definition step (ev : Event) (w : World) : World := commit (st w) (handle ev w).

(** A step of the page as the user can drive it. *)
Definition uiStep (ev : Event) (w : World) : World :=
  if enabled ev (st w) then step ev w else w.

Definition run (evs : list Event) (w : World) : World := foldl (fun w ev => step ev w) w evs.

Definition uiRun (evs : list Event) (w : World) : World := foldl (fun w ev => uiStep ev w) w evs.

(** The first committed render: the initial values of [useState], before any
    effect has run.  [apiKeySelected] is [null], so the spinner is shown. *)
Definition firstRender : World :=
  {| st := initialState; capturedVideoUrl := None; objectUrls := [];
     nextUrlId := 0; tasks := []; keyCheckPending := false;
     selectKeyPending := 0; calls := [] |}.

(** [checkKey] up to its [await] (lines 55-63). *)
Definition checkKey (w : World) : World :=
  if aistudio env then setKeyCheckPending true (emit CallHasSelectedApiKey w)
  else setState (setApiKeySelected (Some true)) w.

(** The page once the effect of lines 54-71 has run on the first render:
    where every session starts. *)
Definition mount : World := checkKey firstRender.

End Component.

(** ** Notions used to state the properties *)

(** Event [ev], arriving in world [w], makes exception [e] leave the [try]
    block of an invocation of [handleGenerateVideo]: thrown by the
    constructor on a click that passes the validation of line 116, or raised
    by the stretch an awaited promise resumes. *)
Definition raises (env : Env) (w : World) (ev : Event) (e : Thrown) : Prop :=
  match ev with
  | EvGenerateClick =>
      is_Some (imageFile (st w)) /\ Js.truthy (prompt (st w)) = true /\
      newGoogleGenAI env (API_KEY env) = Some e
  | EvSettle i s => exists t, tasks w !! i = Some t /\ resume env t s = Some (Raise e)
  | _ => False
  end.

(** The registry agrees with the state on the result slot, no serial number
    is in use twice, and none that is still to be handed out is in use. *)
Definition registryOkOf (video : option ObjectUrl) (urls : list UrlEntry) (next : nat) : Prop :=
  idsIn Result urls = option_list video /\
  NoDup (urlId <$> urls) /\
  Forall (fun e => urlId e < next) urls.

Definition registryOk (w : World) : Prop :=
  registryOkOf (generatedVideoUrl (st w)) (objectUrls w) (nextUrlId w).

(** Rounds of the polling loop seen from outside: the timer fires, then the
    service answers with the next operation. *)
Fixpoint pollRounds (i : nat) (answers : list Operation) : list Event :=
  match answers with
  | [] => []
  | operation :: rest =>
      EvSettle i TimerFired :: EvSettle i (Polled (Returned operation)) :: pollRounds i rest
  end.

(** The calls of the loop entered with [operation] and answered by
    [answers]: a 10000 ms timer, then the poll of the handle held so far. *)
Fixpoint pollCalls (operation : Operation) (answers : list Operation) : list Call :=
  CallSetTimeout 10000%Z ::
  match answers with
  | [] => []
  | next :: rest => CallGetVideosOperation operation :: pollCalls next rest
  end.

(** At most one invocation of [handleGenerateVideo] is suspended. *)
Definition atMostOneInFlight (w : World) : Prop :=
  forall i j ti tj,
    tasks w !! i = Some ti -> tasks w !! j = Some tj ->
    inFlight ti = true -> inFlight tj = true -> i = j.

Definition noUriMessage : string :=
  "Video generation completed, but no video URI was found.".

Definition authMessage : string :=
  "Your API key is invalid or not configured. Please select a valid key.".

(** What a handler may do to the result slot and the registry: leave the
    slot or empty it, possibly adding a preview URL, or fill the slot with a
    URL it has just made. *)
Inductive Touch (w w1 : World) : Prop :=
| TouchKeep :
    generatedVideoUrl (st w1) = generatedVideoUrl (st w) \/ generatedVideoUrl (st w1) = None ->
    objectUrls w1 = objectUrls w -> nextUrlId w1 = nextUrlId w -> Touch w w1
| TouchPreview (blob : Blob) :
    generatedVideoUrl (st w1) = generatedVideoUrl (st w) \/ generatedVideoUrl (st w1) = None ->
    objectUrls w1 = objectUrls w ++ [{| urlId := nextUrlId w; urlSlot := Preview; urlBlob := blob |}] ->
    nextUrlId w1 = S (nextUrlId w) -> Touch w w1
| TouchResult (blob : Blob) :
    generatedVideoUrl (st w1) = Some (nextUrlId w) ->
    objectUrls w1 = objectUrls w ++ [{| urlId := nextUrlId w; urlSlot := Result; urlBlob := blob |}] ->
    nextUrlId w1 = S (nextUrlId w) -> Touch w w1.

(** While the loading flag is down nothing is suspended, and at most one
    invocation is ever suspended. *)
Definition loadingOk (w : World) : Prop :=
  (isLoading (st w) = false -> forall i t, tasks w !! i = Some t -> inFlight t = false) /\
  atMostOneInFlight w.

(** Every event of the list can happen on the page when its turn comes. *)
Fixpoint allEnabled (env : Env) (evs : list Event) (w : World) : bool :=
  match evs with
  | [] => true
  | ev :: rest => enabled ev (st w) && allEnabled env rest (step env ev w)
  end.

(** The settlement is one the [await] of phase [p] can receive. *)
Definition awaited (p : Phase) (s : Settlement) : bool :=
  match p, s with
  | AwaitEncode, Encoded _
  | AwaitSubmit, Submitted _
  | AwaitTimer _, TimerFired
  | AwaitPoll, Polled _
  | AwaitFetch, Fetched _
  | AwaitBlob, BlobRead _ => true
  | _, _ => false
  end.

(** The settlement is a failure of the awaited step. *)
Definition isFailure (s : Settlement) : bool :=
  match s with
  | Encoded ReadFailed
  | Submitted (Threw _)
  | Polled (Threw _)
  | Fetched (Threw _)
  | BlobRead (Threw _) => true
  | _ => false
  end.

(** The data URL [FileReader.readAsDataURL] hands to [onload]: the media
    type, the marker of the encoding and the base64 text of the file. *)
Definition dataUrlOf (mime payload : string) : string :=
  "data:" +:+ mime +:+ ";base64," +:+ payload.

Definition validationMessage : string :=
  "Please upload an image and provide a prompt.".

Definition keyCheckMessage : string :=
  "Could not verify API key status. Assuming key is present.".

(** The dependencies of [useCallback] (line 175) are the same in both
    states. *)
Definition sameDeps (s s' : AppState) : Prop :=
  imageFile s = imageFile s' /\ prompt s = prompt s' /\ aspectRatio s = aspectRatio s'.

(** ** A sample session *)

Module Sample.

Definition env : Env :=
  {| API_KEY := Some "k"; newGoogleGenAI := fun _ => None; aistudio := false |}.

(** The bundle inside the host that provides [window.aistudio]. *)
Definition envStudio : Env :=
  {| API_KEY := Some "k"; newGoogleGenAI := fun _ => None; aistudio := true |}.


Definition photo : File := {| fileRef := 1; fileType := "image/jpeg"; fileData := "JPEG-1" |}.
Definition photo2 : File := {| fileRef := 2; fileType := "image/png"; fileData := "PNG-2" |}.

Definition pending : Operation :=
  {| opName := "operations/1"; done := Some false; response := None |}.

Definition finished : Operation :=
  {| opName := "operations/1"; done := Some true;
     response := Some {| generatedVideos :=
       Some [ {| video := Some {| uri := Some "https://video/1?alt=media" |} |} ] |} |}.

(** Done, with no video in the response. *)
Definition finishedEmpty : Operation :=
  {| opName := "operations/1"; done := Some true;
     response := Some {| generatedVideos := Some [] |} |}.

Definition clip : Blob := "MP4-1".

Definition okResponse : FetchResponse := {| ok := true; statusText := "OK" |}.
Definition forbidden : FetchResponse := {| ok := false; statusText := "Forbidden" |}.
Definition notFound : FetchResponse :=
  {| ok := false; statusText := "Requested entity was not found" |}.

(** The page with an image chosen, then the stations of one generation. *)
Definition chosen (e : Env) : World := uiRun e [EvImageChange (Some photo)] (mount e).
Definition encoding (e : Env) : World := uiStep e EvGenerateClick (chosen e).
Definition submitting (e : Env) : World :=
  step e (EvSettle 0 (Encoded (Loaded "data:image/jpeg;base64,SlBFRy0x"))) (encoding e).
Definition waiting (e : Env) : World :=
  step e (EvSettle 0 (Submitted (Returned pending))) (submitting e).
Definition polling (e : Env) : World := step e (EvSettle 0 TimerFired) (waiting e).
Definition fetching (e : Env) : World :=
  step e (EvSettle 0 (Polled (Returned finished))) (polling e).
Definition reading (e : Env) : World :=
  step e (EvSettle 0 (Fetched (Returned okResponse))) (fetching e).
Definition ready (e : Env) : World :=
  step e (EvSettle 0 (BlobRead (Returned clip))) (reading e).

(** The page with an image chosen and the prompt erased. *)
Definition erased (e : Env) : World :=
  uiRun e [EvImageChange (Some photo); EvPromptChange ""] (mount e).

(** One whole generation by invocation [i], as the page sees it. *)
Definition generation (i : nat) (blob : Blob) : list Event :=
  [ EvGenerateClick;
    EvSettle i (Encoded (Loaded "data:image/jpeg;base64,SlBFRy0x"));
    EvSettle i (Submitted (Returned pending));
    EvSettle i TimerFired;
    EvSettle i (Polled (Returned finished));
    EvSettle i (Fetched (Returned okResponse));
    EvSettle i (BlobRead (Returned blob)) ].

(** Inside the host: the key is reported as selected, an image is chosen
    and a generation has reached the submission. *)
Definition studioSubmitting : World :=
  run envStudio [ EvKeyChecked (Returned true);
                  EvImageChange (Some photo);
                  EvGenerateClick;
                  EvSettle 0 (Encoded (Loaded "data:image/jpeg;base64,SlBFRy0x")) ]
    (mount envStudio).

(** A generation that the service refuses with the entity-not-found text. *)
Definition refused : list Event :=
  [ EvImageChange (Some photo);
    EvGenerateClick;
    EvSettle 0 (Encoded (Loaded "data:image/jpeg;base64,SlBFRy0x"));
    EvSettle 0 (Submitted (Threw (ThrownError "Requested entity was not found."))) ].

(** Choose an image, generate, ask for another, choose an image again. *)
Definition twoImages : list Event :=
  [EvImageChange (Some photo)] ++ generation 0 clip ++
  [EvCreateAnotherClick; EvImageChange (Some photo2)].

End Sample.

(** * Properties *)

(** ** Strings *)

Lemma prefix_refl (s : string) : String.prefix s s = true.
Proof.
  induction s as [|c s IH]; simpl; [reflexivity|].
  destruct (Ascii.ascii_dec c c); [exact IH | congruence].
Qed.

Lemma includes_append_r (pre s : string) : Js.includes s (pre +:+ s) = true.
Proof.
  induction pre as [|c pre IH]; simpl.
  - destruct s; simpl; [reflexivity|].
    rewrite prefix_refl. destruct (Ascii.ascii_dec a a); [reflexivity | congruence].
  - rewrite IH. apply orb_true_r.
Qed.

(** A needle whose first character is absent from [pre] cannot start
    inside [pre]. *)
Lemma includes_skip (c : Ascii.ascii) (needle pre s : string) :
  Js.occurs c pre = false ->
  Js.includes (String c needle) (pre +:+ s) = Js.includes (String c needle) s.
Proof.
  induction pre as [|d pre IH]; intros Hocc; [reflexivity|].
  simpl in Hocc. apply orb_false_elim in Hocc as [Hcd Hrest].
  change (String d pre +:+ s) with (String d (pre +:+ s)).
  cbn [Js.includes String.prefix].
  destruct (Ascii.ascii_dec c d) as [->|_].
  - rewrite Ascii.eqb_refl in Hcd. discriminate.
  - simpl. apply IH, Hrest.
Qed.

(** ** Re-rendering *)

Lemma st_commit (prev : AppState) (w : World) : st (commit prev w) = st w.
Proof.
  unfold commit, recapture, videoUrlCleanup.
  repeat case_bool_decide; try reflexivity; destruct (generatedVideoUrl prev); reflexivity.
Qed.

Lemma tasks_commit (prev : AppState) (w : World) : tasks (commit prev w) = tasks w.
Proof.
  unfold commit, recapture, videoUrlCleanup.
  repeat case_bool_decide; try reflexivity; destruct (generatedVideoUrl prev); reflexivity.
Qed.

Lemma nextUrlId_commit (prev : AppState) (w : World) :
  nextUrlId (commit prev w) = nextUrlId w.
Proof.
  unfold commit, recapture, videoUrlCleanup.
  repeat case_bool_decide; try reflexivity; destruct (generatedVideoUrl prev); reflexivity.
Qed.

(** Nothing runs on a re-render that leaves [generatedVideoUrl] and the
    dependencies of [useCallback] as they were. *)
Lemma commit_unchanged (prev : AppState) (w : World) :
  generatedVideoUrl prev = generatedVideoUrl (st w) ->
  imageFile prev = imageFile (st w) ->
  prompt prev = prompt (st w) ->
  aspectRatio prev = aspectRatio (st w) ->
  commit prev w = w.
Proof.
  intros Hg Hf Hp Ha. unfold commit, videoUrlCleanup.
  rewrite bool_decide_eq_true_2 by exact Hg.
  unfold recapture. rewrite bool_decide_eq_true_2; [reflexivity | auto].
Qed.


(** ** The registry of object URLs *)

Lemma idsIn_app (slot : Slot) (l1 l2 : list UrlEntry) :
  idsIn slot (l1 ++ l2) = idsIn slot l1 ++ idsIn slot l2.
Proof. unfold idsIn. rewrite filter_app, fmap_app. reflexivity. Qed.

Lemma idsIn_one (slot : Slot) (e : UrlEntry) :
  idsIn slot [e] = if decide (urlSlot e = slot) then [urlId e] else [].
Proof.
  unfold idsIn. rewrite filter_cons, filter_nil.
  destruct (decide (urlSlot e = slot)); reflexivity.
Qed.

Lemma ids_filter (url : ObjectUrl) (urls : list UrlEntry) :
  urlId <$> filter (fun e => urlId e <> url) urls =
  filter (fun u => u <> url) (urlId <$> urls).
Proof.
  induction urls as [|e l IH]; [reflexivity|].
  set (keep := fun e : UrlEntry => urlId e <> url) in *.
  set (other := fun u : ObjectUrl => u <> url) in *.
  rewrite fmap_cons. destruct (decide (keep e)) as [Hk|Hk].
  - rewrite (filter_cons_True keep _ _ Hk), (filter_cons_True other _ _ Hk), fmap_cons.
    f_equal. exact IH.
  - rewrite (filter_cons_False keep _ _ Hk), (filter_cons_False other _ _ Hk). exact IH.
Qed.

Lemma idsIn_filter (slot : Slot) (url : ObjectUrl) (urls : list UrlEntry) :
  idsIn slot (filter (fun e => urlId e <> url) urls) =
  filter (fun u => u <> url) (idsIn slot urls).
Proof.
  unfold idsIn. rewrite <- ids_filter. f_equal.
  rewrite !list_filter_filter. apply list_filter_iff. intros e. tauto.
Qed.

Lemma idsIn_subseteq (slot : Slot) (urls : list UrlEntry) :
  idsIn slot urls ⊆ urlId <$> urls.
Proof.
  unfold idsIn. intros u Hu. apply list_elem_of_fmap in Hu as (e & -> & He).
  apply list_elem_of_fmap. exists e. split; [reflexivity|].
  apply list_elem_of_filter in He. tauto.
Qed.

(** Without repeated serial numbers, a URL made for one slot is none of the
    URLs made for another. *)
Lemma idsIn_disjoint (slot slot' : Slot) (url : ObjectUrl) (urls : list UrlEntry) :
  NoDup (urlId <$> urls) -> slot <> slot' ->
  url ∈ idsIn slot urls -> url ∉ idsIn slot' urls.
Proof.
  unfold idsIn. intros Hnd Hne Hin Hin'.
  apply list_elem_of_fmap in Hin as (e & -> & He).
  apply list_elem_of_fmap in Hin' as (e' & Hid & He').
  apply list_elem_of_filter in He as [Hs He], He' as [Hs' He'].
  assert (e = e'); [|congruence].
  apply list_elem_of_lookup in He as [i Hi], He' as [j Hj].
  assert (i = j); [|congruence].
  eapply NoDup_lookup; [exact Hnd| |]; rewrite list_lookup_fmap.
  - rewrite Hi. reflexivity.
  - rewrite Hj. simpl. congruence.
Qed.


(** ** The handler around a stretch of the [try] block *)

Lemma st_catch (e : Thrown) (w : World) :
  st (finallyBlock (catchBlock e w)) =
  if Js.includes entityNotFound (errorMessageOf e) then
    setIsLoading false (setApiKeySelected (Some false) (setError (Some authMessage) (st w)))
  else
    setIsLoading false (setError (Some ("Failed to generate video: " +:+ errorMessageOf e)) (st w)).
Proof.
  unfold finallyBlock, catchBlock.
  destruct (Js.includes entityNotFound (errorMessageOf e)); reflexivity.
Qed.

Lemma calls_catch (e : Thrown) (w : World) :
  calls (finallyBlock (catchBlock e w)) = calls w ++ [CallConsoleError e].
Proof.
  unfold finallyBlock, catchBlock.
  destruct (Js.includes entityNotFound (errorMessageOf e)); reflexivity.
Qed.

Lemma objectUrls_catch (e : Thrown) (w : World) :
  objectUrls (finallyBlock (catchBlock e w)) = objectUrls w.
Proof.
  unfold finallyBlock, catchBlock.
  destruct (Js.includes entityNotFound (errorMessageOf e)); reflexivity.
Qed.

Lemma tasks_catch (e : Thrown) (w : World) :
  tasks (finallyBlock (catchBlock e w)) = tasks w.
Proof.
  unfold finallyBlock, catchBlock.
  destruct (Js.includes entityNotFound (errorMessageOf e)); reflexivity.
Qed.

Lemma st_setTasks (ts : list Task) (w : World) : st (setTasks ts w) = st w.
Proof. reflexivity. Qed.

Section Steps.

Variable env : Env.

Lemma step_settle (w : World) (i : nat) (t : Task) (s : Settlement) (seg : Segment) :
  tasks w !! i = Some t ->
  resume env t s = Some seg ->
  step env (EvSettle i s) w = commit (st w) (settle i t seg w).
Proof. intros Ht Hr. unfold step, handle, handleSettle. rewrite Ht, Hr. reflexivity. Qed.

(** A settlement that is not awaited changes nothing. *)
Lemma step_settle_ignored (w : World) (i : nat) (t : Task) (s : Settlement) :
  tasks w !! i = Some t ->
  resume env t s = None ->
  step env (EvSettle i s) w = w.
Proof.
  intros Ht Hr. unfold step, handle, handleSettle. rewrite Ht, Hr.
  apply commit_unchanged; reflexivity.
Qed.

Lemma step_suspend (w : World) (i : nat) (t : Task) (s : Settlement) (c : Call) (p : Phase) :
  tasks w !! i = Some t ->
  resume env t s = Some (Suspend c p) ->
  step env (EvSettle i s) w = setTasks (<[i := setPhase p t]> (tasks w)) (emit c w).
Proof.
  intros Ht Hr. rewrite (step_settle _ _ _ _ _ Ht Hr).
  apply commit_unchanged; reflexivity.
Qed.

Lemma step_raise (w : World) (i : nat) (t : Task) (s : Settlement) (e : Thrown) :
  tasks w !! i = Some t ->
  resume env t s = Some (Raise e) ->
  step env (EvSettle i s) w =
  setTasks (<[i := setPhase Finished t]> (tasks w)) (finallyBlock (catchBlock e w)).
Proof.
  intros Ht Hr. rewrite (step_settle _ _ _ _ _ Ht Hr). unfold settle.
  apply commit_unchanged; rewrite st_setTasks, st_catch;
    destruct (Js.includes entityNotFound (errorMessageOf e)); reflexivity.
Qed.

Lemma st_step_complete (w : World) (i : nat) (t : Task) (s : Settlement) (b : Blob) :
  tasks w !! i = Some t ->
  resume env t s = Some (Complete b) ->
  st (step env (EvSettle i s) w) =
  setIsLoading false (setGeneratedVideoUrl (Some (nextUrlId w)) (st w)).
Proof.
  intros Ht Hr. rewrite (step_settle _ _ _ _ _ Ht Hr), st_commit. reflexivity.
Qed.


Lemma resume_inFlight (t : Task) (s : Settlement) (seg : Segment) :
  resume env t s = Some seg -> inFlight t = true.
Proof.
  unfold resume, inFlight. destruct (phase t); try reflexivity.
  destruct s; discriminate.
Qed.

End Steps.

(** ** The rotating loading message *)

(** C10: the rotation step always yields a message of the fixed list; from
    the message at position [i] it yields the one at position [(i + 1) mod 5];
    and a message that is not in the list has index [-1] and is followed by
    the first message of the list. *)
Theorem loading_message_rotation :
  length loadingMessages = 5 /\
  (forall prev, exists m, nextLoadingMessage prev = Some m /\ m ∈ loadingMessages) /\
  (forall i m, loadingMessages !! i = Some m ->
     Js.indexOf loadingMessages m = Z.of_nat i /\
     nextLoadingMessage m = loadingMessages !! ((i + 1) mod 5)) /\
  (forall prev, prev ∉ loadingMessages ->
     Js.indexOf loadingMessages prev = (-1)%Z /\
     Js.rem (-1 + 1) 5 = 0%Z /\
     nextLoadingMessage prev = loadingMessages !! 0).
Proof.
  split; [reflexivity|]. split; [|split].
  - intros prev. unfold nextLoadingMessage, Js.indexOf, loadingMessages.
    cbn [Js.indexOfFrom].
    repeat match goal with
           | |- context [String.eqb ?a prev] => destruct (String.eqb a prev)
           end;
      eexists; (split; [reflexivity|]); repeat constructor.
  - intros i m Hi.
    do 5 (destruct i as [|i]; [injection Hi as <-; split; reflexivity|]).
    discriminate.
  - intros prev Hnot.
    assert (Hall : Forall (fun y => String.eqb y prev = false) loadingMessages).
    { apply Forall_forall. intros y Hy. apply String.eqb_neq. intros ->. exact (Hnot Hy). }
    unfold loadingMessages in Hall.
    repeat match goal with
           | H : Forall _ (_ :: _) |- _ => apply Forall_cons in H as [? H]
           end.
    unfold nextLoadingMessage, Js.indexOf, loadingMessages. cbn [Js.indexOfFrom].
    repeat match goal with
           | H : String.eqb _ prev = false |- _ => rewrite H; clear H
           end.
    repeat split.
Qed.

(** A message outside the list, used on the third part of the rotation
    theorem. *)
Lemma loading_message_rotation_witness :
  loadingMessages !! 4 = Some "Finalizing the special effects..." /\
  ("Loading..." ∉ loadingMessages) /\
  nextLoadingMessage "Finalizing the special effects..." = Some "Warming up the creative engines..." /\
  nextLoadingMessage "Loading..." = Some "Warming up the creative engines...".
Proof.
  assert (Hout : "Loading..." ∉ loadingMessages).
  { unfold loadingMessages. rewrite !not_elem_of_cons. repeat split; try discriminate.
    apply not_elem_of_nil. }
  destruct loading_message_rotation as (_ & _ & Hrot & Hnew).
  split; [reflexivity|]. split; [exact Hout|]. split.
  - exact (proj2 (Hrot 4 _ eq_refl)).
  - exact (proj2 (proj2 (Hnew _ Hout))).
Defined.

(** ** Validation *)

Section Claims.

Variable env : Env.

(** A click that fails the validation of line 116. *)
Lemma generate_invalid (w : World) :
  imageFile (st w) = None \/ Js.truthy (prompt (st w)) = false ->
  step env EvGenerateClick w =
  setState (setError (Some "Please upload an image and provide a prompt.")) w.
Proof.
  intros Hmissing. unfold step, handle, handleGenerateVideo.
  destruct Hmissing as [Hf | Hp].
  - rewrite Hf. apply commit_unchanged; reflexivity.
  - rewrite Hp. destruct (imageFile (st w)); apply commit_unchanged; reflexivity.
Qed.

(** C4: when the image or the prompt is missing, the click on "Generate
    Video" only sets the validation message: no call is issued (no encoding,
    submission, poll or fetch), no invocation is suspended and nothing else
    of the state changes. *)
Theorem validation_failure (w : World) :
  imageFile (st w) = None \/ prompt (st w) = "" ->
  let w' := step env EvGenerateClick w in
  w' = setState (setError (Some "Please upload an image and provide a prompt.")) w /\
  error (st w') = Some "Please upload an image and provide a prompt." /\
  calls w' = calls w /\
  tasks w' = tasks w /\
  objectUrls w' = objectUrls w /\
  isLoading (st w') = isLoading (st w) /\
  generatedVideoUrl (st w') = generatedVideoUrl (st w) /\
  apiKeySelected (st w') = apiKeySelected (st w).
Proof.
  intros Hmissing w'.
  assert (Hw : w' = setState (setError (Some "Please upload an image and provide a prompt.")) w).
  { apply generate_invalid. destruct Hmissing as [Hf | Hp]; [left; exact Hf|right].
    rewrite Hp. reflexivity. }
  rewrite Hw. repeat split.
Qed.

(** ** Failures *)

(** C3: whenever an exception leaves the [try] block, the flow ends with the
    loading flag cleared; if the message of the exception contains
    "Requested entity was not found" the error is the invalid-key message and
    [apiKeySelected] becomes false, otherwise the error is "Failed to generate
    video: " followed by the message and [apiKeySelected] is unchanged. *)
Theorem failure_classification (w : World) (ev : Event) (e : Thrown) :
  raises env w ev e ->
  let w' := step env ev w in
  isLoading (st w') = false /\
  (Js.includes entityNotFound (errorMessageOf e) = true ->
     error (st w') = Some authMessage /\ apiKeySelected (st w') = Some false) /\
  (Js.includes entityNotFound (errorMessageOf e) = false ->
     error (st w') = Some ("Failed to generate video: " +:+ errorMessageOf e) /\
     apiKeySelected (st w') = apiKeySelected (st w)).
Proof.
  intros Hr w'. subst w'. destruct ev; simpl in Hr; try contradiction.
  - destruct Hr as ([file Hf] & Hp & Hctor).
    unfold step. rewrite st_commit. unfold handle, handleGenerateVideo.
    rewrite Hf, Hp, Hctor. cbn [negb].
    destruct (bool_decide (is_Some (capturedVideoUrl w)));
      rewrite st_catch; destruct (Js.includes entityNotFound (errorMessageOf e));
      repeat split; intros; try discriminate; reflexivity.
  - destruct Hr as (t & Ht & Hres).
    rewrite (step_raise _ _ _ _ _ _ Ht Hres), st_setTasks, st_catch.
    destruct (Js.includes entityNotFound (errorMessageOf e));
      repeat split; intros; try discriminate; reflexivity.
Qed.

Lemma afterLoop_no_uri (operation : Operation) :
  Js.truthyOpt (videoUriOf operation) = false ->
  afterLoop env operation = Raise (ThrownError noUriMessage).
Proof.
  unfold afterLoop, Js.truthyOpt. destruct (videoUriOf operation) as [u|]; [|reflexivity].
  intros ->. destruct (API_KEY env); reflexivity.
Qed.

Lemma afterLoop_no_key (operation : Operation) :
  Js.truthyOpt (API_KEY env) = false ->
  afterLoop env operation = Raise (ThrownError noUriMessage).
Proof.
  unfold afterLoop, Js.truthyOpt. destruct (API_KEY env) as [k|].
  - intros ->. destruct (videoUriOf operation); [rewrite andb_false_r|]; reflexivity.
  - destruct (videoUriOf operation); reflexivity.
Qed.

Lemma afterLoop_fetch (operation : Operation) (u k : string) :
  videoUriOf operation = Some u -> Js.truthy u = true ->
  API_KEY env = Some k -> Js.truthy k = true ->
  afterLoop env operation = Suspend (CallFetch (u +:+ "&key=" +:+ k)) AwaitFetch.
Proof. intros Hu Htu Hk Htk. unfold afterLoop. rewrite Hu, Hk, Htu, Htk. reflexivity. Qed.

Lemma lookup_insert_same (ts : list Task) (i : nat) (t t' : Task) :
  ts !! i = Some t -> <[i := t']> ts !! i = Some t'.
Proof. intros Ht. apply list_lookup_insert_eq. eapply lookup_lt_Some, Ht. Qed.

(** C6: a poll answer that is done and carries no video URI ends the flow
    with the error "Failed to generate video: Video generation completed, but
    no video URI was found.": the invocation is finished (no further poll, no
    fetch), no object URL is made and [generatedVideoUrl] is not set. *)
Theorem missing_result (w : World) (i : nat) (t : Task) (operation : Operation) :
  tasks w !! i = Some t ->
  phase t = AwaitPoll ->
  isDone operation = true ->
  Js.truthyOpt (videoUriOf operation) = false ->
  let w' := step env (EvSettle i (Polled (Returned operation))) w in
  error (st w') = Some ("Failed to generate video: " +:+ noUriMessage) /\
  isLoading (st w') = false /\
  tasks w' !! i = Some (setPhase Finished t) /\
  calls w' = calls w ++ [CallConsoleError (ThrownError noUriMessage)] /\
  objectUrls w' = objectUrls w /\
  generatedVideoUrl (st w') = generatedVideoUrl (st w) /\
  apiKeySelected (st w') = apiKeySelected (st w).
Proof.
  intros Ht Hp Hdone Huri w'.
  assert (Hres : resume env t (Polled (Returned operation)) = Some (Raise (ThrownError noUriMessage))).
  { unfold resume. rewrite Hp. unfold whileLoop. rewrite Hdone. cbn [negb].
    f_equal. apply afterLoop_no_uri, Huri. }
  subst w'. rewrite (step_raise _ _ _ _ _ _ Ht Hres).
  rewrite st_setTasks, st_catch.
  change (Js.includes entityNotFound (errorMessageOf (ThrownError noUriMessage))) with false.
  cbn [setTasks tasks calls objectUrls]. rewrite calls_catch, objectUrls_catch.
  repeat split. apply (lookup_insert_same _ _ _ _ Ht).
Qed.

Lemma fetch_error_not_auth (text : string) :
  Js.includes entityNotFound ("Failed to fetch video: " +:+ text) =
  Js.includes entityNotFound text.
Proof. apply (includes_skip _ _ "Failed to fetch video: "). reflexivity. Qed.

(** C7, as the code has it: a fetch answered with a response that is not OK
    ends the flow without an object URL and without [generatedVideoUrl] set.
    The error shown is "Failed to generate video: Failed to fetch video: "
    followed by the status text, and so contains it, unless the status text
    contains "Requested entity was not found": then the error is the
    invalid-key message and [apiKeySelected] becomes false. *)
Theorem fetch_not_ok (w : World) (i : nat) (t : Task) (videoResponse : FetchResponse) :
  tasks w !! i = Some t ->
  phase t = AwaitFetch ->
  ok videoResponse = false ->
  let w' := step env (EvSettle i (Fetched (Returned videoResponse))) w in
  let shown := "Failed to generate video: Failed to fetch video: " +:+ statusText videoResponse in
  (Js.includes entityNotFound (statusText videoResponse) = false ->
     error (st w') = Some shown /\
     Js.includes (statusText videoResponse) shown = true /\
     apiKeySelected (st w') = apiKeySelected (st w)) /\
  (Js.includes entityNotFound (statusText videoResponse) = true ->
     error (st w') = Some authMessage /\ apiKeySelected (st w') = Some false) /\
  isLoading (st w') = false /\
  tasks w' !! i = Some (setPhase Finished t) /\
  objectUrls w' = objectUrls w /\
  generatedVideoUrl (st w') = generatedVideoUrl (st w).
Proof.
  intros Ht Hp Hok w' shown.
  set (e := ThrownError ("Failed to fetch video: " +:+ statusText videoResponse)).
  assert (Hres : resume env t (Fetched (Returned videoResponse)) = Some (Raise e)).
  { unfold resume. rewrite Hp, Hok. reflexivity. }
  subst w'. rewrite (step_raise _ _ _ _ _ _ Ht Hres).
  rewrite st_setTasks, st_catch.
  cbn [setTasks tasks objectUrls]. rewrite objectUrls_catch.
  subst e. cbn [errorMessageOf]. rewrite fetch_error_not_auth.
  destruct (Js.includes entityNotFound (statusText videoResponse));
    (split; [intros; try discriminate|split; [intros; try discriminate|]]).
  all: repeat split; try apply (lookup_insert_same _ _ _ _ Ht).
  exact (includes_append_r "Failed to generate video: Failed to fetch video: "
           (statusText videoResponse)).
Qed.

(** ** Every outcome of an awaited step *)

Lemma resume_cases (t : Task) (s : Settlement) :
  awaited (phase t) s = true ->
  (exists c p, resume env t s = Some (Suspend c p) /\ p <> Finished /\ isFailure s = false) \/
  (exists b, resume env t s = Some (Complete b) /\ isFailure s = false) \/
  (exists e, resume env t s = Some (Raise e)).
Proof.
  unfold resume, awaited.
  destruct (phase t); destruct s as [[|]|[|]| |[|]|[|]|[|]]; try discriminate; intros _;
    unfold whileLoop, afterLoop; repeat case_match;
    first [ left; do 2 eexists; split; [reflexivity|split; [discriminate|reflexivity]]
          | right; left; eexists; split; reflexivity
          | right; right; eexists; reflexivity ].
Qed.

(** A click that passes the validation of line 116. *)
Lemma generate_click (w : World) (file : File) :
  imageFile (st w) = Some file -> Js.truthy (prompt (st w)) = true ->
  let w' := step env EvGenerateClick w in
  match newGoogleGenAI env (API_KEY env) with
  | Some e =>
      isLoading (st w') = false /\ tasks w' = tasks w /\
      (error (st w') = Some authMessage \/
       error (st w') = Some ("Failed to generate video: " +:+ errorMessageOf e))
  | None =>
      isLoading (st w') = true /\ error (st w') = None /\
      tasks w' = tasks w ++ [{| closureFile := file; closurePrompt := prompt (st w);
                                closureAspect := aspectRatio (st w); phase := AwaitEncode |}]
  end.
Proof.
  intros Hf Hp w'. subst w'. unfold step.
  rewrite st_commit, tasks_commit. unfold handle, handleGenerateVideo.
  rewrite Hf, Hp. cbn [negb].
  destruct (newGoogleGenAI env (API_KEY env)) as [e|].
  + rewrite st_catch, tasks_catch.
    destruct (bool_decide (is_Some (capturedVideoUrl w))), (Js.includes _ _);
      repeat split; solve [left; reflexivity | right; reflexivity].
  + destruct (bool_decide (is_Some (capturedVideoUrl w))); repeat split.
Qed.

(** X16: whatever an awaited step ends with, the continuation either suspends
    again without touching the state, or finishes the invocation with the
    loading flag cleared: with an error message when an exception left the
    [try] block (every failed step does so), with the new video URL
    otherwise.  A click that passes validation either suspends at the
    encoding or, when the constructor throws, ends the same way.  No
    exception is left over: [step] has no other outcome. *)
Theorem failures_are_caught (w : World) :
  (forall i t s,
     tasks w !! i = Some t -> awaited (phase t) s = true ->
     let w' := step env (EvSettle i s) w in
     exists t', tasks w' !! i = Some t' /\
       ((inFlight t' = true /\ st w' = st w /\ isFailure s = false) \/
        (phase t' = Finished /\ isLoading (st w') = false /\
         ((exists e, raises env w (EvSettle i s) e /\
             (error (st w') = Some authMessage \/
              error (st w') = Some ("Failed to generate video: " +:+ errorMessageOf e))) \/
          (generatedVideoUrl (st w') = Some (nextUrlId w) /\ isFailure s = false))))) /\
  (forall file,
     imageFile (st w) = Some file -> Js.truthy (prompt (st w)) = true ->
     let w' := step env EvGenerateClick w in
     match newGoogleGenAI env (API_KEY env) with
     | Some e =>
         isLoading (st w') = false /\ tasks w' = tasks w /\
         (error (st w') = Some authMessage \/
          error (st w') = Some ("Failed to generate video: " +:+ errorMessageOf e))
     | None =>
         isLoading (st w') = true /\ error (st w') = None /\
         tasks w' = tasks w ++ [{| closureFile := file; closurePrompt := prompt (st w);
                                   closureAspect := aspectRatio (st w); phase := AwaitEncode |}]
     end).
Proof.
  split.
  - intros i t s Ht Haw w'. subst w'.
    destruct (resume_cases t s Haw) as [(c & p & Hres & Hp & Hf)|[(b & Hres & Hf)|(e & Hres)]].
    + rewrite (step_suspend _ _ _ _ _ _ _ Ht Hres). exists (setPhase p t).
      split; [apply (lookup_insert_same _ _ _ _ Ht)|]. left.
      repeat split; [|exact Hf]. unfold inFlight; cbn [setPhase phase].
      destruct p; congruence.
    + exists (setPhase Finished t). split.
      * rewrite (step_settle _ _ _ _ _ _ Ht Hres), tasks_commit.
        apply (lookup_insert_same _ _ _ _ Ht).
      * right. rewrite (st_step_complete _ _ _ _ _ _ Ht Hres).
        split; [reflexivity|]. split; [reflexivity|]. right. split; [reflexivity|exact Hf].
    + exists (setPhase Finished t). rewrite (step_raise _ _ _ _ _ _ Ht Hres).
      split; [apply (lookup_insert_same _ _ _ _ Ht)|]. right.
      rewrite st_setTasks, st_catch. split; [reflexivity|].
      split; [destruct (Js.includes _ _); reflexivity|]. left. exists e.
      split; [exists t; split; assumption|].
      destruct (Js.includes _ _); [left|right]; reflexivity.
  - intros file Hf Hp. exact (generate_click w file Hf Hp).
Qed.

(** ** The polling loop *)

Lemma run_cons (ev : Event) (evs : list Event) (w : World) :
  run env (ev :: evs) w = run env evs (step env ev w).
Proof. reflexivity. Qed.

Lemma resume_timer (t : Task) (operation : Operation) :
  phase t = AwaitTimer operation ->
  resume env t TimerFired = Some (Suspend (CallGetVideosOperation operation) AwaitPoll).
Proof. intros Hp. unfold resume. rewrite Hp. reflexivity. Qed.

Lemma resume_polled_pending (t : Task) (operation : Operation) :
  phase t = AwaitPoll -> isDone operation = false ->
  resume env t (Polled (Returned operation)) =
  Some (Suspend (CallSetTimeout 10000%Z) (AwaitTimer operation)).
Proof. intros Hp Hd. unfold resume, whileLoop. rewrite Hp, Hd. reflexivity. Qed.

Lemma resume_polled_done (t : Task) (operation : Operation) :
  phase t = AwaitPoll -> isDone operation = true ->
  resume env t (Polled (Returned operation)) = Some (afterLoop env operation).
Proof. intros Hp Hd. unfold resume, whileLoop. rewrite Hp, Hd. reflexivity. Qed.

(** One round: the timer fires, the held handle is polled, the answer is
    not done, and the next timer is set. *)
Lemma poll_round (w : World) (i : nat) (t : Task) (operation next : Operation) :
  tasks w !! i = Some t -> phase t = AwaitTimer operation -> isDone next = false ->
  let w' := run env [EvSettle i TimerFired; EvSettle i (Polled (Returned next))] w in
  tasks w' !! i = Some (setPhase (AwaitTimer next) t) /\
  st w' = st w /\
  calls w' = calls w ++ [CallGetVideosOperation operation; CallSetTimeout 10000%Z].
Proof.
  intros Ht Hp Hd w'. subst w'. rewrite !run_cons. cbn [run foldl].
  rewrite (step_suspend _ _ _ _ _ _ _ Ht (resume_timer _ _ Hp)).
  set (w1 := setTasks _ _).
  assert (Ht1 : tasks w1 !! i = Some (setPhase AwaitPoll t)).
  { apply (lookup_insert_same _ _ _ _ Ht). }
  rewrite (step_suspend _ _ _ _ _ _ _ Ht1 (resume_polled_pending (setPhase AwaitPoll t) next eq_refl Hd)).
  cbn [setTasks tasks st calls emit]. split; [|split].
  - unfold w1. cbn [setTasks tasks]. rewrite list_insert_insert_eq.
    apply (lookup_insert_same _ _ _ _ Ht).
  - reflexivity.
  - unfold w1. cbn [setTasks calls emit]. rewrite <- app_assoc. reflexivity.
Qed.

Lemma setPhase_same (t : Task) (p : Phase) : phase t = p -> setPhase p t = t.
Proof. intros <-. destruct t; reflexivity. Qed.

Lemma poll_rounds (answers : list Operation) :
  forall (w : World) (i : nat) (t : Task) (operation : Operation),
  tasks w !! i = Some t -> phase t = AwaitTimer operation ->
  Forall (fun o => isDone o = false) answers ->
  let w' := run env (pollRounds i answers) w in
  tasks w' !! i = Some (setPhase (AwaitTimer (default operation (last answers))) t) /\
  st w' = st w /\
  calls w' = calls w ++ tail (pollCalls operation answers).
Proof.
  induction answers as [|next rest IH]; intros w i t operation Ht Hp Hall w'.
  - subst w'. cbn. rewrite app_nil_r. repeat split.
    rewrite Ht. f_equal. symmetry. apply setPhase_same, Hp.
  - apply Forall_cons in Hall as [Hnext Hrest].
    destruct (poll_round w i t operation next Ht Hp Hnext) as (Ht2 & Hst2 & Hc2).
    subst w'. cbn [pollRounds]. rewrite 2!run_cons.
    change (run env (pollRounds i rest)
              (run env [EvSettle i TimerFired; EvSettle i (Polled (Returned next))] w))
      with (run env (pollRounds i rest)
              (step env (EvSettle i (Polled (Returned next))) (step env (EvSettle i TimerFired) w))) in *.
    cbn [run foldl] in Ht2, Hst2, Hc2.
    destruct (IH _ i _ next Ht2 eq_refl Hrest) as (Ht3 & Hst3 & Hc3).
    split; [|split].
    + rewrite Ht3. f_equal.
      rewrite last_cons. destruct (last rest); reflexivity.
    + rewrite Hst3. exact Hst2.
    + rewrite Hc3, Hc2, <- app_assoc. destruct rest; reflexivity.
Qed.

(** C8: entered with an operation that is not done, and answered any number
    of times by operations that are not done, the loop is still waiting: the
    invocation is suspended at the 10000 ms timer holding the latest answer,
    the state is untouched, and the calls made are, in turn, a 10000 ms timer
    and a poll of the handle held so far.  There is no bound on the number of
    rounds.  The loop is left by the first answer that is done: the handle is
    polled once more and no timer is set after it. *)
Theorem polling_continues
    (w : World) (i : nat) (t : Task) (operation : Operation) (answers : list Operation) :
  tasks w !! i = Some t ->
  phase t = AwaitSubmit ->
  isDone operation = false ->
  Forall (fun o => isDone o = false) answers ->
  let w' := run env (EvSettle i (Submitted (Returned operation)) :: pollRounds i answers) w in
  let held := default operation (last answers) in
  tasks w' !! i = Some (setPhase (AwaitTimer held) t) /\
  st w' = st w /\
  calls w' = calls w ++ pollCalls operation answers /\
  forall final, isDone final = true ->
    let w'' := run env [EvSettle i TimerFired; EvSettle i (Polled (Returned final))] w' in
    exists t'' c,
      tasks w'' !! i = Some t'' /\
      (phase t'' = AwaitFetch \/ phase t'' = Finished) /\
      calls w'' = calls w' ++ [CallGetVideosOperation held; c] /\
      c <> CallSetTimeout 10000%Z.
Proof.
  intros Ht Hp Hd Hall w' held.
  assert (Hres : resume env t (Submitted (Returned operation)) =
                 Some (Suspend (CallSetTimeout 10000%Z) (AwaitTimer operation))).
  { unfold resume, whileLoop. rewrite Hp, Hd. reflexivity. }
  pose proof (step_suspend _ _ _ _ _ _ _ Ht Hres) as Hstep.
  set (w1 := step env (EvSettle i (Submitted (Returned operation))) w) in *.
  assert (Ht1 : tasks w1 !! i = Some (setPhase (AwaitTimer operation) t)).
  { rewrite Hstep. apply (lookup_insert_same _ _ _ _ Ht). }
  destruct (poll_rounds answers w1 i _ operation Ht1 eq_refl Hall) as (Ht2 & Hst2 & Hc2).
  change (run env (pollRounds i answers) w1) with w' in Ht2, Hst2, Hc2.
  fold held in Ht2.
  change (setPhase (AwaitTimer held) (setPhase (AwaitTimer operation) t))
    with (setPhase (AwaitTimer held) t) in Ht2.
  assert (Hcalls : calls w' = calls w ++ pollCalls operation answers).
  { rewrite Hc2, Hstep. cbn [setTasks calls emit]. rewrite <- app_assoc.
    destruct answers; reflexivity. }
  split; [exact Ht2|]. split; [rewrite Hst2, Hstep; reflexivity|]. split; [exact Hcalls|].
  intros final Hfinal w''. subst w''. rewrite !run_cons. cbn [run foldl].
  rewrite (step_suspend _ _ _ _ _ _ _ Ht2
             (resume_timer (setPhase (AwaitTimer held) t) held eq_refl)).
  set (w2 := setTasks _ _).
  set (t2 := setPhase AwaitPoll (setPhase (AwaitTimer held) t)).
  assert (Ht3 : tasks w2 !! i = Some t2).
  { apply (lookup_insert_same _ _ _ _ Ht2). }
  pose proof (resume_polled_done t2 final eq_refl Hfinal) as Hr.
  destruct (afterLoop env final) as [c p| |e] eqn:Hafter.
  - rewrite (step_suspend _ _ _ _ _ _ _ Ht3 Hr).
    exists (setPhase p t2), c. cbn [setTasks tasks calls emit].
    split; [apply (lookup_insert_same _ _ _ _ Ht3)|].
    unfold afterLoop in Hafter. repeat case_match; try discriminate.
    injection Hafter as <- <-. split; [left; reflexivity|].
    split; [|discriminate]. unfold w2. cbn [setTasks calls emit].
    rewrite <- app_assoc. reflexivity.
  - unfold afterLoop in Hafter. repeat case_match; discriminate.
  - rewrite (step_raise _ _ _ _ _ _ Ht3 Hr).
    exists (setPhase Finished t2), (CallConsoleError e). cbn [setTasks tasks calls].
    split; [apply (lookup_insert_same _ _ _ _ Ht3)|]. split; [right; reflexivity|].
    split; [|discriminate]. rewrite calls_catch. unfold w2. cbn [setTasks calls emit].
    rewrite <- app_assoc. reflexivity.
Qed.

(** ** The registry invariant *)

Lemma registry_revoke (v : ObjectUrl) (urls : list UrlEntry) (next : nat) :
  registryOkOf (Some v) urls next ->
  registryOkOf None (filter (fun e => urlId e <> v) urls) next.
Proof.
  intros (Hres & Hnd & Hlt). split; [|split].
  - rewrite idsIn_filter, Hres. change (option_list (Some v)) with [v].
    rewrite filter_cons_False; [reflexivity | intros H; apply H; reflexivity].
  - rewrite ids_filter. apply NoDup_filter, Hnd.
  - apply Forall_forall. intros e He. apply list_elem_of_filter in He as [_ He].
    revert e He. apply Forall_forall, Hlt.
Qed.

Lemma registry_add (slot : Slot) (blob : Blob) (video : option ObjectUrl)
    (urls : list UrlEntry) (next : nat) :
  registryOkOf video urls next ->
  (slot = Result -> video = None) ->
  registryOkOf (if decide (slot = Result) then Some next else video)
    (urls ++ [{| urlId := next; urlSlot := slot; urlBlob := blob |}]) (S next).
Proof.
  intros (Hres & Hnd & Hlt) Hslot. split; [|split].
  - rewrite idsIn_app, idsIn_one, Hres. cbn [urlSlot urlId].
    destruct (decide (slot = Result)) as [Hs|Hs].
    + rewrite (Hslot Hs). reflexivity.
    + apply app_nil_r.
  - rewrite fmap_app. apply NoDup_app. split; [exact Hnd|]. split.
    + intros u Hu Hu'. apply list_elem_of_fmap in Hu as (e & -> & He).
      cbn in Hu'. apply list_elem_of_singleton in Hu'.
      rewrite Forall_forall in Hlt. specialize (Hlt e He). lia.
    + apply NoDup_singleton.
  - apply Forall_app. split.
    + eapply Forall_impl; [exact Hlt|]. cbn. intros; lia.
    + apply Forall_singleton. cbn. lia.
Qed.

Lemma registry_current (v : ObjectUrl) (urls : list UrlEntry) (next : nat) :
  registryOkOf (Some v) urls next -> v < next.
Proof.
  intros (Hres & _ & Hlt).
  assert (Hin : v ∈ urlId <$> urls).
  { apply (idsIn_subseteq Result). rewrite Hres. apply list_elem_of_here. }
  apply list_elem_of_fmap in Hin as (e & -> & He).
  rewrite Forall_forall in Hlt. exact (Hlt e He).
Qed.

Lemma filter_fresh (v : nat) (urls : list UrlEntry) (e : UrlEntry) :
  urlId e <> v ->
  filter (fun x => urlId x <> v) (urls ++ [e]) = filter (fun x => urlId x <> v) urls ++ [e].
Proof.
  intros Hne. rewrite filter_app. f_equal.
  rewrite filter_cons_True by exact Hne. reflexivity.
Qed.

Lemma objectUrls_commit (prev : AppState) (w : World) :
  objectUrls (commit prev w) =
  if bool_decide (generatedVideoUrl prev = generatedVideoUrl (st w)) then objectUrls w
  else match generatedVideoUrl prev with
       | Some v => filter (fun e => urlId e <> v) (objectUrls w)
       | None => objectUrls w
       end.
Proof.
  unfold commit, recapture, videoUrlCleanup.
  repeat case_bool_decide; try reflexivity; destruct (generatedVideoUrl prev); reflexivity.
Qed.

Lemma registryOk_commit (w w1 : World) :
  registryOk w -> Touch w w1 -> registryOk (commit (st w) w1).
Proof.
  unfold registryOk. intros Hok Htouch.
  rewrite st_commit, nextUrlId_commit, objectUrls_commit.
  destruct Htouch as [Hg Hu Hn | blob Hg Hu Hn | blob Hg Hu Hn]; rewrite Hu, Hn.
  - destruct Hg as [Hg|Hg]; rewrite Hg.
    + rewrite bool_decide_eq_true_2 by reflexivity. exact Hok.
    + destruct (generatedVideoUrl (st w)) as [v|].
      * rewrite bool_decide_eq_false_2 by discriminate. apply registry_revoke, Hok.
      * exact Hok.
  - destruct Hg as [Hg|Hg]; rewrite Hg.
    + rewrite bool_decide_eq_true_2 by reflexivity.
      apply (registry_add Preview blob) in Hok; [exact Hok | discriminate].
    + destruct (generatedVideoUrl (st w)) as [v|] eqn:Hv.
      * rewrite bool_decide_eq_false_2 by discriminate.
        pose proof (registry_current _ _ _ Hok) as Hlt.
        rewrite filter_fresh by (cbn; lia).
        apply registry_revoke in Hok.
        apply (registry_add Preview blob) in Hok; [exact Hok | discriminate].
      * rewrite bool_decide_eq_true_2 by reflexivity.
        apply (registry_add Preview blob) in Hok; [exact Hok | discriminate].
  - rewrite Hg. destruct (generatedVideoUrl (st w)) as [v|] eqn:Hv.
    + pose proof (registry_current _ _ _ Hok) as Hlt.
      rewrite bool_decide_eq_false_2 by (intros [= ->]; lia).
      rewrite filter_fresh by (cbn; lia).
      apply registry_revoke in Hok.
      apply (registry_add Result blob) in Hok; [exact Hok | reflexivity].
    + rewrite bool_decide_eq_false_2 by discriminate.
      apply (registry_add Result blob) in Hok; [exact Hok | reflexivity].
Qed.

Lemma video_catch (e : Thrown) (w : World) :
  generatedVideoUrl (st (finallyBlock (catchBlock e w))) = generatedVideoUrl (st w).
Proof. rewrite st_catch. destruct (Js.includes _ _); reflexivity. Qed.

Lemma nextUrlId_catch (e : Thrown) (w : World) :
  nextUrlId (finallyBlock (catchBlock e w)) = nextUrlId w.
Proof.
  unfold finallyBlock, catchBlock. destruct (Js.includes _ _); reflexivity.
Qed.

Lemma touch_catch (e : Thrown) (w w1 : World) :
  Touch w w1 -> Touch w (finallyBlock (catchBlock e w1)).
Proof.
  intros [Hg Hu Hn | blob Hg Hu Hn | blob Hg Hu Hn].
  - apply TouchKeep; rewrite ?video_catch, ?objectUrls_catch, ?nextUrlId_catch; assumption.
  - apply (TouchPreview _ _ blob);
      rewrite ?video_catch, ?objectUrls_catch, ?nextUrlId_catch; assumption.
  - apply (TouchResult _ _ blob);
      rewrite ?video_catch, ?objectUrls_catch, ?nextUrlId_catch; assumption.
Qed.

Lemma touch_refl (w : World) : Touch w w.
Proof. apply TouchKeep; [left|..]; reflexivity. Qed.

(** Every handler touches the result slot and the registry in one of the
    three ways. *)
Lemma handle_touch (ev : Event) (w : World) : Touch w (handle env ev w).
Proof.
  destruct ev as [r| |r|file|value|ratio| | | |i s]; cbn [handle].
  - unfold handleKeyChecked. destruct (keyCheckPending w); [|apply touch_refl].
    destruct r; apply TouchKeep; try reflexivity; left; reflexivity.
  - unfold handleSelectKey. destruct (aistudio env); [|apply touch_refl].
    apply TouchKeep; try reflexivity; left; reflexivity.
  - unfold handleKeySelected. destruct (selectKeyPending w); [apply touch_refl|].
    destruct r; apply TouchKeep; try reflexivity; left; reflexivity.
  - unfold handleImageChange. destruct file as [f|]; [|apply touch_refl].
    apply (TouchPreview _ _ (fileData f)).
    + destruct (bool_decide (is_Some (generatedVideoUrl (st w)))); [right|left]; reflexivity.
    + destruct (bool_decide (is_Some (generatedVideoUrl (st w)))); reflexivity.
    + destruct (bool_decide (is_Some (generatedVideoUrl (st w)))); reflexivity.
  - apply TouchKeep; try reflexivity; left; reflexivity.
  - apply TouchKeep; try reflexivity; left; reflexivity.
  - unfold handleGenerateVideo.
    destruct (imageFile (st w)); [|apply TouchKeep; try reflexivity; left; reflexivity].
    destruct (negb (Js.truthy (prompt (st w))));
      [apply TouchKeep; try reflexivity; left; reflexivity|].
    destruct (newGoogleGenAI env (API_KEY env)); [apply touch_catch|];
      destruct (bool_decide (is_Some (capturedVideoUrl w)));
      apply TouchKeep; try reflexivity; solve [left; reflexivity | right; reflexivity].
  - apply TouchKeep; try reflexivity; right; reflexivity.
  - unfold handleInterval. destruct (isLoading (st w)); [|apply touch_refl].
    apply TouchKeep; try reflexivity; left; reflexivity.
  - unfold handleSettle. destruct (tasks w !! i) as [t|]; [|apply touch_refl].
    destruct (resume env t s) as [[c p|blob|e]|]; [| | |apply touch_refl]; unfold settle.
    + apply TouchKeep; try reflexivity; left; reflexivity.
    + apply (TouchResult _ _ blob); reflexivity.
    + apply TouchKeep; rewrite ?st_setTasks, ?video_catch; cbn [setTasks objectUrls nextUrlId];
        rewrite ?objectUrls_catch, ?nextUrlId_catch; try reflexivity. left; reflexivity.
Qed.

(** The registry invariant holds at every moment of every session. *)
Lemma registryOk_step (ev : Event) (w : World) :
  registryOk w -> registryOk (step env ev w).
Proof. intros Hok. apply registryOk_commit; [exact Hok | apply handle_touch]. Qed.

Lemma registryOk_mount : registryOk (mount env).
Proof.
  unfold mount, checkKey. destruct (aistudio env); (split; [reflexivity|split; [apply NoDup_nil_2|apply Forall_nil_2]]).
Qed.

Lemma registryOk_run (evs : list Event) (w : World) :
  registryOk w -> registryOk (run env evs w).
Proof.
  revert w. induction evs as [|ev evs IH]; intros w Hok; [exact Hok|].
  rewrite run_cons. apply IH, registryOk_step, Hok.
Qed.

Lemma registryOk_uiRun (evs : list Event) (w : World) :
  registryOk w -> registryOk (uiRun env evs w).
Proof.
  revert w. induction evs as [|ev evs IH]; intros w Hok; [exact Hok|].
  cbn [uiRun foldl]. apply IH. unfold uiStep.
  destruct (enabled ev (st w)); [apply registryOk_step|]; exact Hok.
Qed.

(** ** The successful end of a generation *)



(** ** One generation at a time *)

Lemma loadingOk_same (w w' : World) :
  tasks w' = tasks w -> isLoading (st w') = isLoading (st w) ->
  loadingOk w -> loadingOk w'.
Proof.
  unfold loadingOk, atMostOneInFlight. intros -> ->. tauto.
Qed.

Lemma loadingOk_idle (w w' : World) :
  tasks w' = tasks w -> isLoading (st w) = false ->
  loadingOk w -> loadingOk w'.
Proof.
  unfold loadingOk, atMostOneInFlight. intros -> Hl [Hidle Hone]. split.
  - intros _. exact (Hidle Hl).
  - exact Hone.
Qed.

Lemma loadingOk_update (w w' : World) (i : nat) (t t' : Task) :
  loadingOk w ->
  tasks w !! i = Some t -> inFlight t = true ->
  tasks w' = <[i := t']> (tasks w) ->
  (inFlight t' = true /\ isLoading (st w') = isLoading (st w)) \/
  (inFlight t' = false /\ isLoading (st w') = false) ->
  loadingOk w'.
Proof.
  intros [Hidle Hone] Ht Hin Htasks Hcase.
  assert (Hold : forall j tj, tasks w' !! j = Some tj -> inFlight tj = true ->
                   exists tj0, tasks w !! j = Some tj0 /\ inFlight tj0 = true).
  { intros j tj Hj Hfl. rewrite Htasks in Hj. destruct (decide (i = j)) as [<-|Hne].
    - exists t. split; assumption.
    - rewrite list_lookup_insert_ne in Hj by exact Hne. exists tj. split; assumption. }
  destruct Hcase as [[Hfl Hload]|[Hfl Hload]].
  - split.
    + intros Hl. rewrite Hload in Hl. rewrite (Hidle Hl _ _ Ht) in Hin. discriminate.
    + intros j k tj tk Hj Hk Hfj Hfk.
      destruct (Hold _ _ Hj Hfj) as (tj0 & Hj0 & Hfj0).
      destruct (Hold _ _ Hk Hfk) as (tk0 & Hk0 & Hfk0).
      exact (Hone _ _ _ _ Hj0 Hk0 Hfj0 Hfk0).
  - assert (Hnone : forall j tj, tasks w' !! j = Some tj -> inFlight tj = false).
    { intros j tj Hj. destruct (inFlight tj) eqn:Hfj; [|reflexivity].
      destruct (Hold _ _ Hj Hfj) as (tj0 & Hj0 & Hfj0).
      pose proof (Hone _ _ _ _ Ht Hj0 Hin Hfj0) as <-.
      rewrite Htasks, (lookup_insert_same _ _ _ _ Ht) in Hj.
      injection Hj as <-. congruence. }
    split; [intros _; exact Hnone|].
    intros j k tj tk Hj Hk Hfj Hfk. rewrite (Hnone _ _ Hj) in Hfj. discriminate.
Qed.

Lemma formView_idle (s : AppState) : isFormView s = true -> isLoading s = false.
Proof.
  unfold isFormView, renderContent.
  destruct (apiKeySelected s) as [[|]|]; try discriminate.
  destruct (isLoading s); [discriminate | reflexivity].
Qed.

Lemma suspend_inFlight (t : Task) (s : Settlement) (c : Call) (p : Phase) :
  resume env t s = Some (Suspend c p) -> inFlight (setPhase p t) = true.
Proof.
  unfold resume, whileLoop, afterLoop, inFlight. cbn [setPhase phase].
  repeat case_match; intros [=]; subst; reflexivity.
Qed.

Lemma loadingOk_settle (i : nat) (s : Settlement) (w : World) :
  loadingOk w -> loadingOk (step env (EvSettle i s) w).
Proof.
  intros Hok. destruct (tasks w !! i) as [t|] eqn:Ht.
  - destruct (resume env t s) as [seg|] eqn:Hres.
    + pose proof (resume_inFlight _ _ _ _ Hres) as Hin.
      destruct seg as [c p|blob|e].
      * apply (loadingOk_update w _ i t (setPhase p t) Hok Ht Hin).
        -- rewrite (step_suspend _ _ _ _ _ _ _ Ht Hres). reflexivity.
        -- rewrite (step_suspend _ _ _ _ _ _ _ Ht Hres). left.
           split; [|reflexivity]. apply (suspend_inFlight _ _ _ _ Hres).
      * apply (loadingOk_update w _ i t (setPhase Finished t) Hok Ht Hin).
        -- rewrite (step_settle _ _ _ _ _ _ Ht Hres), tasks_commit. reflexivity.
        -- right. rewrite (st_step_complete _ _ _ _ _ _ Ht Hres). split; reflexivity.
      * apply (loadingOk_update w _ i t (setPhase Finished t) Hok Ht Hin).
        -- rewrite (step_raise _ _ _ _ _ _ Ht Hres). reflexivity.
        -- right. rewrite (step_raise _ _ _ _ _ _ Ht Hres), st_setTasks, st_catch.
           split; [reflexivity|]. destruct (Js.includes _ _); reflexivity.
    + rewrite (step_settle_ignored _ _ _ _ _ Ht Hres). exact Hok.
  - unfold step, handle, handleSettle. rewrite Ht.
    rewrite commit_unchanged by reflexivity. exact Hok.
Qed.

Lemma quiet_handlers (ev : Event) (w : World) :
  match ev with EvGenerateClick | EvSettle _ _ => False | _ => True end ->
  tasks (step env ev w) = tasks w /\ isLoading (st (step env ev w)) = isLoading (st w).
Proof.
  intros Hev. unfold step. rewrite tasks_commit, st_commit.
  destruct ev as [r| |r|file|value|ratio| | | |i s]; try contradiction; cbn [handle].
  - unfold handleKeyChecked. destruct (keyCheckPending w), r; split; reflexivity.
  - unfold handleSelectKey. destruct (aistudio env); split; reflexivity.
  - unfold handleKeySelected. destruct (selectKeyPending w), r; split; reflexivity.
  - unfold handleImageChange. destruct file; [|split; reflexivity].
    destruct (bool_decide (is_Some (generatedVideoUrl (st w)))); split; reflexivity.
  - split; reflexivity.
  - split; reflexivity.
  - split; reflexivity.
  - unfold handleInterval. destruct (isLoading (st w)) eqn:Hl; split; cbn; congruence.
Qed.

(** When nothing is loading, a click starts at most one invocation. *)
Lemma loadingOk_generate (w : World) :
  isLoading (st w) = false -> loadingOk w -> loadingOk (step env EvGenerateClick w).
Proof.
  intros Hl Hok.
  destruct (imageFile (st w)) as [file|] eqn:Hf;
    [destruct (Js.truthy (prompt (st w))) eqn:Hp|].
  - pose proof (generate_click w file Hf Hp) as Hstart. cbv zeta in Hstart.
    destruct (newGoogleGenAI env (API_KEY env)) as [e|].
    + destruct Hstart as (_ & Htasks & _). exact (loadingOk_idle w _ Htasks Hl Hok).
    + destruct Hstart as (Hloading & _ & Htasks). destruct Hok as [Hidle _].
      specialize (Hidle Hl).
      assert (Hlast : forall j tj, tasks (step env EvGenerateClick w) !! j = Some tj ->
                inFlight tj = true -> j = length (tasks w)).
      { intros j tj Hj Hfj. rewrite Htasks in Hj.
        destruct (decide (j < length (tasks w))) as [Hlt|Hge].
        - rewrite lookup_app_l in Hj by exact Hlt. rewrite (Hidle _ _ Hj) in Hfj. discriminate.
        - apply lookup_lt_Some in Hj. rewrite length_app in Hj. cbn in Hj. lia. }
      split.
      * rewrite Hloading. discriminate.
      * intros j k tj tk Hj Hk Hfj Hfk.
        rewrite (Hlast _ _ Hj Hfj), (Hlast _ _ Hk Hfk). reflexivity.
  - rewrite (generate_invalid w (or_intror Hp)).
    apply (loadingOk_same w); [reflexivity|reflexivity|exact Hok].
  - rewrite (generate_invalid w (or_introl Hf)).
    apply (loadingOk_same w); [reflexivity|reflexivity|exact Hok].
Qed.

Lemma loadingOk_uiStep (ev : Event) (w : World) :
  loadingOk w -> loadingOk (uiStep env ev w).
Proof.
  intros Hok. unfold uiStep. destruct (enabled ev (st w)) eqn:Hen; [|exact Hok].
  destruct ev as [r| |r|file|value|ratio| | | |i s];
    try (match goal with
         | |- loadingOk (step env ?e w) =>
             destruct (quiet_handlers e w I) as [Ht Hl]; apply (loadingOk_same w _ Ht Hl Hok)
         end).
  - apply loadingOk_generate; [|exact Hok].
    cbn [enabled] in Hen. apply andb_true_iff in Hen as [Hform _].
    apply formView_idle, Hform.
  - apply loadingOk_settle, Hok.
Qed.

Lemma loadingOk_mount : loadingOk (mount env).
Proof.
  unfold mount, checkKey. destruct (aistudio env);
    (split; [intros _ i t Hi | intros i j ti tj Hi]); destruct i; discriminate.
Qed.

Lemma loadingOk_uiRun (evs : list Event) (w : World) :
  loadingOk w -> loadingOk (uiRun env evs w).
Proof.
  revert w. induction evs as [|ev evs IH]; intros w Hok; [exact Hok|].
  cbn [uiRun foldl]. apply IH, loadingOk_uiStep, Hok.
Qed.

(** C2, as the code has it: on the page as the user can drive it, at most
    one invocation of [handleGenerateVideo] is ever suspended, because the
    button is not offered while [isLoading] holds ([isGenerateDisabled], and
    the loading view replaces the form), and nothing is suspended while
    [isLoading] is false.  The handler has no guard of its own: invoked with
    an image and a prompt, it starts a new invocation next to the ones there
    are, whatever [isLoading] is. *)
Theorem one_generation_at_a_time (evs : list Event) :
  let w := uiRun env evs (mount env) in
  atMostOneInFlight w /\
  (isLoading (st w) = true ->
     isGenerateDisabled (st w) = true /\ enabled EvGenerateClick (st w) = false) /\
  (isLoading (st w) = false -> forall i t, tasks w !! i = Some t -> inFlight t = false) /\
  (forall w0 file,
     imageFile (st w0) = Some file -> Js.truthy (prompt (st w0)) = true ->
     newGoogleGenAI env (API_KEY env) = None ->
     tasks (step env EvGenerateClick w0) =
       tasks w0 ++ [{| closureFile := file; closurePrompt := prompt (st w0);
                       closureAspect := aspectRatio (st w0); phase := AwaitEncode |}]).
Proof.
  intros w. destruct (loadingOk_uiRun evs _ loadingOk_mount) as [Hidle Hone].
  split; [exact Hone|]. split; [|split; [exact Hidle|]].
  - intros Hl. unfold enabled, isGenerateDisabled. rewrite Hl. cbn.
    split; [reflexivity | apply andb_false_r].
  - intros w0 file Hf Hp Hctor.
    pose proof (generate_click w0 file Hf Hp) as Hstart.
    cbv zeta in Hstart. rewrite Hctor in Hstart.
    exact (proj2 (proj2 Hstart)).
Qed.

End Claims.

(** ** The two slots *)

Section Slots.

Variable env : Env.

(** X15: in every sequence of events, offered by the page or not, the live
    URLs made for the video are exactly the one in [generatedVideoUrl]: at
    most one, and none once the state holds no video. *)
Lemma result_slot_single (evs : list Event) :
  let w := run env evs (mount env) in
  liveIn Result w = option_list (generatedVideoUrl (st w)) /\ length (liveIn Result w) <= 1.
Proof.
  intros w. destruct (registryOk_run env evs _ (registryOk_mount env)) as (Hres & _).
  fold w in Hres. unfold liveIn. rewrite Hres.
  split; [reflexivity|]. destruct (generatedVideoUrl (st w)); cbn; lia.
Qed.

(** No handler and no effect revokes a URL made for the preview. *)
Lemma preview_url_stays (ev : Event) (w : World) (u : ObjectUrl) :
  registryOk w -> u ∈ liveIn Preview w -> u ∈ liveIn Preview (step env ev w).
Proof.
  intros Hok Hu. unfold step, liveIn in *. rewrite objectUrls_commit.
  assert (Hgrow : u ∈ idsIn Preview (objectUrls (handle env ev w))).
  { destruct (handle_touch env ev w) as [_ Hurls _|blob _ Hurls _|blob _ Hurls _]; rewrite Hurls;
      rewrite ?idsIn_app; try apply elem_of_app; auto. }
  case_bool_decide; [exact Hgrow|].
  destruct (generatedVideoUrl (st w)) as [v|] eqn:Hv; [|exact Hgrow].
  rewrite idsIn_filter. apply list_elem_of_filter. split; [|exact Hgrow].
  intros ->. destruct Hok as (Hres & Hnd & _).
  apply (idsIn_disjoint Result Preview v (objectUrls w) Hnd); [discriminate| |exact Hu].
  rewrite Hres, Hv. apply list_elem_of_here.
Qed.

End Slots.

(** * The sample session *)

(** C1 on the code: the user chooses an image, generates a video, asks for
    another and chooses a second image, each on a control the page offers.
    The URL made for the first preview is never revoked: two URLs made for
    the preview slot are alive together, the first of them held by nothing.
    [handleImageChange] invoked while [imagePreview] holds a URL overwrites
    it without revoking it either. *)
Theorem preview_url_leaks :
  (let w := uiRun Sample.env Sample.twoImages (mount Sample.env) in
   allEnabled Sample.env Sample.twoImages (mount Sample.env) = true /\
   imagePreview (st w) = Some 2 /\
   liveIn Preview w = [0; 2] /\
   liveIn Result w = [] /\
   Forall (fun c => c <> CallRevokeObjectURL 0) (calls w)) /\
  (let w := Sample.chosen Sample.env in
   let w' := step Sample.env (EvImageChange (Some Sample.photo2)) w in
   imagePreview (st w) = Some 0 /\
   liveIn Preview w = [0] /\
   imagePreview (st w') = Some 1 /\
   liveIn Preview w' = [0; 1] /\
   calls w' = calls w ++ [CallCreateObjectURL Preview 1]).
Proof.
  vm_compute. repeat split. repeat constructor; discriminate.
Qed.

(** C2 refuted as stated: [handleGenerateVideo] invoked while an invocation
    is polling does not reject the call and cancels nothing: it starts the
    encoding of a second flow, and two invocations are suspended. *)
Lemma reentrant_generate_runs_two_flows :
  let w := Sample.polling Sample.env in
  let w' := step Sample.env EvGenerateClick w in
  isLoading (st w) = true /\
  (exists t0, tasks w !! 0 = Some t0 /\ phase t0 = AwaitPoll) /\
  (exists t0 t1, tasks w' !! 0 = Some t0 /\ tasks w' !! 1 = Some t1 /\
                 phase t0 = AwaitPoll /\ phase t1 = AwaitEncode) /\
  calls w' = calls w ++ [CallReadAsDataURL Sample.photo] /\
  ~ atMostOneInFlight w'.
Proof.
  cbv zeta. split; [vm_compute; reflexivity|].
  split; [eexists; split; vm_compute; reflexivity|].
  split; [do 2 eexists; (split; [|split; [|split]]); vm_compute; reflexivity|].
  split; [vm_compute; reflexivity|].
  intros Hone.
  assert (H01 : 0 = 1); [|discriminate].
  eapply (Hone 0 1); vm_compute; reflexivity.
Qed.


(** C7 refuted as stated: when the status text of the failed fetch is
    "Requested entity was not found", the error shown is the invalid-key
    message, which does not contain the status text, and [apiKeySelected]
    becomes false. *)
Lemma fetch_not_ok_entity_not_found :
  let w := Sample.fetching Sample.env in
  let w' := step Sample.env (EvSettle 0 (Fetched (Returned Sample.notFound))) w in
  ok Sample.notFound = false /\
  (exists t, tasks w !! 0 = Some t /\ phase t = AwaitFetch) /\
  error (st w') = Some authMessage /\
  Js.includes (statusText Sample.notFound) authMessage = false /\
  apiKeySelected (st w') = Some false.
Proof.
  cbv zeta. split; [reflexivity|].
  split; [eexists; split; vm_compute; reflexivity|].
  vm_compute. repeat split.
Qed.

(** ** The properties on the sample session *)

Lemma sample_polling_registryOk (e : Env) : registryOk (Sample.polling e).
Proof.
  unfold Sample.polling, Sample.waiting, Sample.submitting, Sample.encoding, Sample.chosen.
  do 3 apply registryOk_step.
  apply (registryOk_uiRun e [EvGenerateClick]), registryOk_uiRun, registryOk_mount.
Qed.

(** The validation message on the page whose prompt has been erased. *)
Lemma validation_failure_witness :
  let w := Sample.erased Sample.env in
  let w' := step Sample.env EvGenerateClick w in
  prompt (st w) = "" /\
  error (st w') = Some "Please upload an image and provide a prompt." /\
  calls w' = calls w /\ tasks w' = tasks w.
Proof.
  cbv zeta.
  assert (Hp : prompt (st (Sample.erased Sample.env)) = "") by (vm_compute; reflexivity).
  pose proof (validation_failure Sample.env (Sample.erased Sample.env) (or_intror Hp)) as H.
  cbv zeta in H. destruct H as (_ & He & Hc & Ht & _).
  split; [exact Hp|]. split; [exact He|]. split; [exact Hc|exact Ht].
Defined.

(** A rejected submission, once with the entity-not-found text and once
    without. *)
Lemma failure_classification_witness :
  let w := Sample.submitting Sample.env in
  let gone := EvSettle 0 (Submitted (Threw (ThrownError "404 Requested entity was not found."))) in
  let quota := EvSettle 0 (Submitted (Threw (ThrownError "Quota exceeded"))) in
  (error (st (step Sample.env gone w)) = Some authMessage /\
   apiKeySelected (st (step Sample.env gone w)) = Some false) /\
  (error (st (step Sample.env quota w)) = Some "Failed to generate video: Quota exceeded" /\
   apiKeySelected (st (step Sample.env quota w)) = apiKeySelected (st w)).
Proof.
  cbv zeta. split.
  - assert (Hr : raises Sample.env (Sample.submitting Sample.env)
                   (EvSettle 0 (Submitted (Threw (ThrownError "404 Requested entity was not found."))))
                   (ThrownError "404 Requested entity was not found.")).
    { cbn [raises]. eexists. split; vm_compute; reflexivity. }
    pose proof (failure_classification Sample.env _ _ _ Hr) as H. cbv zeta in H.
    destruct H as (_ & Hauth & _). apply Hauth. vm_compute. reflexivity.
  - assert (Hr : raises Sample.env (Sample.submitting Sample.env)
                   (EvSettle 0 (Submitted (Threw (ThrownError "Quota exceeded"))))
                   (ThrownError "Quota exceeded")).
    { cbn [raises]. eexists. split; vm_compute; reflexivity. }
    pose proof (failure_classification Sample.env _ _ _ Hr) as H. cbv zeta in H.
    destruct H as (_ & _ & Hother). apply Hother. vm_compute. reflexivity.
Defined.


(** The poll answered by an operation that is done and has no video. *)
Lemma missing_result_witness :
  let w := Sample.polling Sample.env in
  let w' := step Sample.env (EvSettle 0 (Polled (Returned Sample.finishedEmpty))) w in
  error (st w') = Some ("Failed to generate video: " +:+ noUriMessage) /\
  isLoading (st w') = false /\
  objectUrls w' = objectUrls w.
Proof.
  cbv zeta.
  assert (Ht : tasks (Sample.polling Sample.env) !! 0 =
               Some {| closureFile := Sample.photo; closurePrompt := prompt initialState;
                       closureAspect := Ratio16x9; phase := AwaitPoll |})
    by (vm_compute; reflexivity).
  pose proof (missing_result Sample.env (Sample.polling Sample.env) 0 _ Sample.finishedEmpty
                Ht eq_refl eq_refl eq_refl) as H.
  cbv zeta in H. destruct H as (He & Hl & _ & _ & Hu & _).
  split; [exact He|]. split; [exact Hl|exact Hu].
Defined.

(** The fetch answered "Forbidden". *)
Lemma fetch_not_ok_witness :
  let w := Sample.fetching Sample.env in
  let w' := step Sample.env (EvSettle 0 (Fetched (Returned Sample.forbidden))) w in
  error (st w') = Some "Failed to generate video: Failed to fetch video: Forbidden" /\
  generatedVideoUrl (st w') = None.
Proof.
  cbv zeta.
  assert (Ht : tasks (Sample.fetching Sample.env) !! 0 =
               Some {| closureFile := Sample.photo; closurePrompt := prompt initialState;
                       closureAspect := Ratio16x9; phase := AwaitFetch |})
    by (vm_compute; reflexivity).
  pose proof (fetch_not_ok Sample.env (Sample.fetching Sample.env) 0 _ Sample.forbidden
                Ht eq_refl eq_refl) as H.
  cbv zeta in H. destruct H as (Hshown & _ & _ & _ & _ & Hv).
  split.
  - apply Hshown. vm_compute. reflexivity.
  - rewrite Hv. vm_compute. reflexivity.
Defined.

(** Two rounds of polling after the submission. *)
Lemma polling_continues_witness :
  let w := Sample.submitting Sample.env in
  let w' := run Sample.env
              (EvSettle 0 (Submitted (Returned Sample.pending))
                 :: pollRounds 0 [Sample.pending; Sample.pending]) w in
  calls w' = calls w ++ [ CallSetTimeout 10000%Z; CallGetVideosOperation Sample.pending;
                          CallSetTimeout 10000%Z; CallGetVideosOperation Sample.pending;
                          CallSetTimeout 10000%Z ] /\
  isLoading (st w') = true.
Proof.
  cbv zeta.
  assert (Ht : tasks (Sample.submitting Sample.env) !! 0 =
               Some {| closureFile := Sample.photo; closurePrompt := prompt initialState;
                       closureAspect := Ratio16x9; phase := AwaitSubmit |})
    by (vm_compute; reflexivity).
  assert (Hall : Forall (fun o => isDone o = false) [Sample.pending; Sample.pending])
    by (repeat constructor).
  pose proof (polling_continues Sample.env (Sample.submitting Sample.env) 0 _ Sample.pending
                [Sample.pending; Sample.pending] Ht eq_refl eq_refl Hall) as H.
  cbv zeta in H. destruct H as (_ & Hst & Hc & _).
  split; [exact Hc|]. rewrite Hst. vm_compute. reflexivity.
Defined.

(** A rejected submission ends the sample invocation. *)
Lemma failures_are_caught_witness :
  let w := Sample.submitting Sample.env in
  let w' := step Sample.env (EvSettle 0 (Submitted (Threw ThrownOther))) w in
  exists t', tasks w' !! 0 = Some t' /\ phase t' = Finished /\ isLoading (st w') = false.
Proof.
  cbv zeta.
  assert (Ht : tasks (Sample.submitting Sample.env) !! 0 =
               Some {| closureFile := Sample.photo; closurePrompt := prompt initialState;
                       closureAspect := Ratio16x9; phase := AwaitSubmit |})
    by (vm_compute; reflexivity).
  destruct (failures_are_caught Sample.env (Sample.submitting Sample.env)) as [Hasync _].
  pose proof (Hasync 0 _ (Submitted (Threw ThrownOther)) Ht eq_refl) as H.
  cbv zeta in H. destruct H as (t' & Ht' & [(_ & _ & Hno)|(Hfin & Hl & _)]).
  - discriminate Hno.
  - exists t'. split; [exact Ht'|]. split; [exact Hfin|exact Hl].
Defined.

(** While the sample generation is encoding, the button is not offered. *)
Lemma one_generation_at_a_time_witness :
  let w := uiRun Sample.env [EvImageChange (Some Sample.photo); EvGenerateClick] (mount Sample.env) in
  isLoading (st w) = true /\
  isGenerateDisabled (st w) = true /\
  enabled EvGenerateClick (st w) = false.
Proof.
  cbv zeta.
  pose proof (one_generation_at_a_time Sample.env
                [EvImageChange (Some Sample.photo); EvGenerateClick]) as H.
  cbv zeta in H. destruct H as (_ & Hdis & _).
  assert (Hl : isLoading (st (uiRun Sample.env [EvImageChange (Some Sample.photo); EvGenerateClick]
                                (mount Sample.env))) = true) by (vm_compute; reflexivity).
  split; [exact Hl|]. exact (Hdis Hl).
Defined.

(** * Further properties of the component *)

(** ** Encoding the image (lines 5-15) and the request (lines 127-143) *)

Lemma untilComma_whole (s : string) :
  Js.occurs Js.comma s = false -> Js.untilComma s = s.
Proof.
  induction s as [|c s IH]; [reflexivity|]. cbn [Js.occurs Js.untilComma].
  intros H. apply orb_false_elim in H as [Hc Hs].
  rewrite Ascii.eqb_sym, Hc. f_equal. apply IH, Hs.
Qed.

Lemma splitComma1_after (pre rest : string) :
  Js.occurs Js.comma pre = false ->
  Js.splitComma1 (pre +:+ String Js.comma rest) = Some (Js.untilComma rest).
Proof.
  induction pre as [|c pre IH]; intros H.
  - change ("" +:+ String Js.comma rest) with (String Js.comma rest).
    cbn [Js.splitComma1]. rewrite Ascii.eqb_refl. reflexivity.
  - cbn [Js.occurs] in H. apply orb_false_elim in H as [Hc Hs].
    change (String c pre +:+ String Js.comma rest)
      with (String c (pre +:+ String Js.comma rest)).
    cbn [Js.splitComma1]. rewrite Ascii.eqb_sym, Hc. apply IH, Hs.
Qed.

Lemma occurs_append (c : Ascii.ascii) (a b : string) :
  Js.occurs c (a +:+ b) = Js.occurs c a || Js.occurs c b.
Proof.
  induction a as [|d a IH]; [reflexivity|].
  change (String d a +:+ b) with (String d (a +:+ b)).
  cbn [Js.occurs]. rewrite IH. apply orb_assoc.
Qed.

Lemma append_assoc (a b c : string) : (a +:+ b) +:+ c = a +:+ (b +:+ c).
Proof.
  induction a as [|d a IH]; [reflexivity|].
  change ((String d a +:+ b) +:+ c) with (String d ((a +:+ b) +:+ c)).
  rewrite IH. reflexivity.
Qed.

(** [fileToBase64] resolves with the base64 text of a data URL. *)
Lemma splitComma1_dataUrl (mime payload : string) :
  Js.occurs Js.comma mime = false -> Js.occurs Js.comma payload = false ->
  Js.splitComma1 (dataUrlOf mime payload) = Some payload.
Proof.
  intros Hm Hp. unfold dataUrlOf.
  change ("data:" +:+ mime +:+ ";base64," +:+ payload)
    with ("data:" +:+ (mime +:+ (";base64" +:+ String Js.comma payload))).
  rewrite <- !append_assoc. rewrite splitComma1_after.
  - rewrite (untilComma_whole _ Hp). reflexivity.
  - rewrite !occurs_append, Hm. reflexivity.
Qed.

Lemma setGeneratedVideoUrl_same (s : AppState) (v : option ObjectUrl) :
  generatedVideoUrl s = v -> setGeneratedVideoUrl v s = s.
Proof. intros <-. destruct s; reflexivity. Qed.

Section Request.

Variable env : Env.

(** The world right after a click that starts a generation on a page that
    shows no video. *)
Lemma generate_click_world (w : World) (file : File) :
  imageFile (st w) = Some file -> Js.truthy (prompt (st w)) = true ->
  newGoogleGenAI env (API_KEY env) = None ->
  generatedVideoUrl (st w) = None ->
  step env EvGenerateClick w =
  setTasks (tasks w ++ [{| closureFile := file; closurePrompt := prompt (st w);
                           closureAspect := aspectRatio (st w); phase := AwaitEncode |}])
    (emit (CallReadAsDataURL file)
       (setState (setError None) (setState (setIsLoading true) w))).
Proof.
  intros Hf Hp Hctor Hv. unfold step, handle, handleGenerateVideo.
  rewrite Hf, Hp, Hctor. cbn [negb].
  assert (Hsame : (if bool_decide (is_Some (capturedVideoUrl w))
                   then setState (setGeneratedVideoUrl None)
                          (setState (setError None) (setState (setIsLoading true) w))
                   else setState (setError None) (setState (setIsLoading true) w)) =
                  setState (setError None) (setState (setIsLoading true) w)).
  { destruct (bool_decide (is_Some (capturedVideoUrl w))); [|reflexivity].
    unfold setState at 1. cbn [st capturedVideoUrl objectUrls nextUrlId tasks
                                keyCheckPending selectKeyPending calls].
    rewrite setGeneratedVideoUrl_same by exact Hv. reflexivity. }
  rewrite Hsame. apply commit_unchanged; reflexivity.
Qed.

(** X1: a click on a page with an image and a prompt, followed by the data
    URL of the file, reads the file and submits one request: the fixed model,
    one video at 720p, the prompt and the aspect ratio of the moment of the
    click, the media type of the file and, as image bytes, the base64 text of
    the data URL without its prefix.  The page is loading and shows no
    error. *)
Theorem request_is_submitted (w : World) (file : File) (mime payload : string) :
  imageFile (st w) = Some file ->
  Js.truthy (prompt (st w)) = true ->
  newGoogleGenAI env (API_KEY env) = None ->
  generatedVideoUrl (st w) = None ->
  Js.occurs Js.comma mime = false ->
  Js.occurs Js.comma payload = false ->
  let w' := run env [ EvGenerateClick;
                      EvSettle (length (tasks w)) (Encoded (Loaded (dataUrlOf mime payload))) ] w in
  calls w' =
    calls w ++
    [ CallReadAsDataURL file;
      CallGenerateVideos
        {| model := "veo-3.1-fast-generate-preview";
           paramPrompt := prompt (st w);
           imageBytes := Some payload;
           mimeType := fileType file;
           numberOfVideos := 1;
           resolution := "720p";
           paramAspectRatio := aspectRatio (st w) |} ] /\
  isLoading (st w') = true /\
  error (st w') = None /\
  exists t, tasks w' !! length (tasks w) = Some t /\ phase t = AwaitSubmit.
Proof.
  intros Hf Hp Hctor Hv Hm Hpay w'. subst w'. rewrite !run_cons. cbn [run foldl].
  rewrite (generate_click_world w file Hf Hp Hctor Hv).
  set (t0 := {| closureFile := file; closurePrompt := prompt (st w);
                closureAspect := aspectRatio (st w); phase := AwaitEncode |}).
  set (w1 := setTasks _ _).
  assert (Ht : tasks w1 !! length (tasks w) = Some t0).
  { unfold w1. cbn [setTasks tasks]. apply list_lookup_middle. reflexivity. }
  assert (Hr : resume env t0 (Encoded (Loaded (dataUrlOf mime payload))) =
               Some (Suspend
                       (CallGenerateVideos
                          {| model := "veo-3.1-fast-generate-preview";
                             paramPrompt := prompt (st w);
                             imageBytes := Some payload;
                             mimeType := fileType file;
                             numberOfVideos := 1;
                             resolution := "720p";
                             paramAspectRatio := aspectRatio (st w) |})
                       AwaitSubmit)).
  { unfold resume. cbn [t0 phase closurePrompt closureFile closureAspect].
    rewrite (splitComma1_dataUrl _ _ Hm Hpay). reflexivity. }
  rewrite (step_suspend _ _ _ _ _ _ _ Ht Hr).
  split; [|split; [|split]].
  - unfold w1. cbn [setTasks calls emit setState]. rewrite <- app_assoc. reflexivity.
  - reflexivity.
  - reflexivity.
  - exists (setPhase AwaitSubmit t0). split; [|reflexivity].
    cbn [setTasks tasks]. apply (lookup_insert_same _ _ _ _ Ht).
Qed.

(** X2: when the file cannot be read, [fileToBase64] rejects with the
    event of [onerror], which is no [Error]: nothing is submitted, the
    invocation ends, and the page shows "Failed to generate video: An unknown
    error occurred." with the loading flag cleared and [apiKeySelected]
    untouched. *)
Theorem unreadable_image (w : World) (file : File) :
  imageFile (st w) = Some file ->
  Js.truthy (prompt (st w)) = true ->
  newGoogleGenAI env (API_KEY env) = None ->
  generatedVideoUrl (st w) = None ->
  let w' := run env [ EvGenerateClick;
                      EvSettle (length (tasks w)) (Encoded ReadFailed) ] w in
  calls w' = calls w ++ [CallReadAsDataURL file; CallConsoleError ThrownOther] /\
  error (st w') = Some "Failed to generate video: An unknown error occurred." /\
  isLoading (st w') = false /\
  apiKeySelected (st w') = apiKeySelected (st w) /\
  generatedVideoUrl (st w') = None /\
  exists t, tasks w' !! length (tasks w) = Some t /\ phase t = Finished.
Proof.
  intros Hf Hp Hctor Hv w'. subst w'. rewrite !run_cons. cbn [run foldl].
  rewrite (generate_click_world w file Hf Hp Hctor Hv).
  set (t0 := {| closureFile := file; closurePrompt := prompt (st w);
                closureAspect := aspectRatio (st w); phase := AwaitEncode |}).
  set (w1 := setTasks _ _).
  assert (Ht : tasks w1 !! length (tasks w) = Some t0).
  { unfold w1. cbn [setTasks tasks]. apply list_lookup_middle. reflexivity. }
  assert (Hr : resume env t0 (Encoded ReadFailed) = Some (Raise ThrownOther)) by reflexivity.
  rewrite (step_raise _ _ _ _ _ _ Ht Hr).
  rewrite st_setTasks, st_catch. cbn [setTasks calls tasks]. rewrite calls_catch.
  change (Js.includes entityNotFound (errorMessageOf ThrownOther)) with false.
  split; [|split; [|split; [|split; [|split]]]].
  - unfold w1. cbn [setTasks calls emit setState]. rewrite <- app_assoc. reflexivity.
  - reflexivity.
  - reflexivity.
  - reflexivity.
  - cbn. exact Hv.
  - exists (setPhase Finished t0). split; [|reflexivity].
    apply (lookup_insert_same _ _ _ _ Ht).
Qed.

End Request.

(** ** Handlers, one by one *)

Lemma keyCheckPending_commit (prev : AppState) (w : World) :
  keyCheckPending (commit prev w) = keyCheckPending w.
Proof.
  unfold commit, recapture, videoUrlCleanup.
  repeat case_bool_decide; try reflexivity; destruct (generatedVideoUrl prev); reflexivity.
Qed.

Lemma selectKeyPending_commit (prev : AppState) (w : World) :
  selectKeyPending (commit prev w) = selectKeyPending w.
Proof.
  unfold commit, recapture, videoUrlCleanup.
  repeat case_bool_decide; try reflexivity; destruct (generatedVideoUrl prev); reflexivity.
Qed.

(** Opens a step into the cases of its handler. *)
Ltac handler_cases ev :=
  unfold step;
  rewrite ?st_commit, ?tasks_commit, ?keyCheckPending_commit, ?selectKeyPending_commit;
  destruct ev; cbn [handle];
  unfold handleKeyChecked, handleSelectKey, handleKeySelected, handleImageChange,
    handleGenerateVideo, handleCreateAnother, handleInterval, handleSettle, settle,
    finallyBlock, catchBlock;
  repeat case_match; cbn.

(** ** The loading message (lines 34-40, 50 and 73-84) *)

(** The updater is defined on every message and lands in the list. *)
Lemma nextLoadingMessage_lands (prev : string) :
  exists m, nextLoadingMessage prev = Some m /\ m ∈ loadingMessages.
Proof.
  unfold nextLoadingMessage, Js.indexOf, loadingMessages. cbn [Js.indexOfFrom].
  repeat match goal with
         | |- context [String.eqb ?a prev] => destruct (String.eqb a prev)
         end;
    eexists; (split; [reflexivity|]); repeat constructor.
Qed.

Section Messages.

Variable env : Env.

Lemma loadingMessage_step (ev : Event) (w : World) :
  loadingMessage (st (step env ev w)) = loadingMessage (st w) \/
  loadingMessage (st (step env ev w)) = loadingMessageUpdater (loadingMessage (st w)).
Proof.
  handler_cases ev; first [left; reflexivity | right; reflexivity].
Qed.

(** X3: in every sequence of events, the state holds a loading message, and
    it is one of the five of the list: whatever the interval callback reads
    from the array at the index it computes, it is never [undefined]. *)
Theorem loading_message_in_list (evs : list Event) :
  exists m, loadingMessage (st (run env evs (mount env))) = Some m /\ m ∈ loadingMessages.
Proof.
  assert (Hstart : exists m, loadingMessage (st (mount env)) = Some m /\ m ∈ loadingMessages).
  { exists "Warming up the creative engines...". split; [|constructor].
    unfold mount, checkKey. destruct (aistudio env); reflexivity. }
  revert Hstart. generalize (mount env).
  induction evs as [|ev evs IH]; intros w Hw; [exact Hw|].
  rewrite run_cons. apply IH.
  destruct (loadingMessage_step ev w) as [-> | ->]; [exact Hw|].
  destruct Hw as (m & -> & _). exact (nextLoadingMessage_lands m).
Qed.

Lemma step_interval (w : World) : step env EvInterval w = handleInterval w.
Proof.
  unfold step. cbn [handle]. unfold handleInterval.
  destruct (isLoading (st w)); apply commit_unchanged; reflexivity.
Qed.

(** X4: while the page is loading, each firing of the interval shows a
    message different from the one before, and five firings bring back the
    message, and the whole world, they started from. *)
Theorem interval_has_period_five (w : World) (m : string) :
  isLoading (st w) = true ->
  loadingMessage (st w) = Some m ->
  m ∈ loadingMessages ->
  loadingMessage (st (step env EvInterval w)) <> loadingMessage (st w) /\
  run env (replicate 5 EvInterval) w = w.
Proof.
  intros Hl Hs Hm. cbn [replicate run foldl]. rewrite !step_interval.
  destruct w as [s c urls n ts kp sp cl]. destruct s as [k f p pr a l lm g e].
  cbn in Hl, Hs. subst l lm. unfold loadingMessages in Hm.
  repeat (apply elem_of_cons in Hm as [-> | Hm]); [| | | | |inversion Hm];
    (split; [vm_compute; discriminate | vm_compute; reflexivity]).
Qed.

End Messages.

(** ** The API key (lines 54-71, 95-101 and 179-200) *)

Section Key.

Variable env : Env.

(** X5: at start-up, outside the host the form is shown at once with the key
    taken as present; inside the host the spinner is shown while
    [hasSelectedApiKey] is asked, its answer decides between the form and
    the key-required view, and its failure is logged and answered by the
    form with the message that the key is assumed present. *)
Theorem key_check_at_startup :
  if aistudio env then
    renderContent (st (mount env)) = SpinnerView /\
    calls (mount env) = [CallHasSelectedApiKey] /\
    (forall hasKey,
       renderContent (st (step env (EvKeyChecked (Returned hasKey)) (mount env))) =
       if hasKey then FormView else KeyRequiredView) /\
    (forall err,
       let w' := step env (EvKeyChecked (Threw err)) (mount env) in
       renderContent (st w') = FormView /\
       error (st w') = Some keyCheckMessage /\
       calls w' = [CallHasSelectedApiKey; CallConsoleError err])
  else
    renderContent (st (mount env)) = FormView /\
    calls (mount env) = [] /\
    error (st (mount env)) = None.
Proof.
  unfold mount, checkKey. destruct (aistudio env).
  - split; [reflexivity|]. split; [reflexivity|]. split.
    + intros [|]; vm_compute; reflexivity.
    + intros err. vm_compute. repeat split.
  - repeat split.
Qed.

Lemma key_step (ev : Event) (w : World) :
  (keyCheckPending (step env ev w) = keyCheckPending w /\
   (apiKeySelected (st (step env ev w)) = apiKeySelected (st w) \/
    is_Some (apiKeySelected (st (step env ev w))))) \/
  (keyCheckPending w = true /\ is_Some (apiKeySelected (st (step env ev w)))).
Proof.
  handler_cases ev;
    first [ left; split; [first [reflexivity|assumption]
                         |first [left; reflexivity|right; eexists; reflexivity]]
          | right; split; [first [reflexivity|assumption]|eexists; reflexivity] ].
Qed.

Lemma keyChecked_decides (r : Outcome bool) (w : World) :
  keyCheckPending w = true -> is_Some (apiKeySelected (st (step env (EvKeyChecked r) w))).
Proof.
  intros Hp. unfold step. rewrite st_commit. cbn [handle]. unfold handleKeyChecked.
  rewrite Hp. destruct r; eexists; reflexivity.
Qed.

Lemma spinner_invariant (evs : list Event) :
  let w := run env evs (mount env) in
  (apiKeySelected (st w) = None -> keyCheckPending w = true) /\
  (keyCheckPending w = true -> aistudio env = true).
Proof.
  assert (Hstart : (apiKeySelected (st (mount env)) = None -> keyCheckPending (mount env) = true) /\
                   (keyCheckPending (mount env) = true -> aistudio env = true)).
  { unfold mount, checkKey. destruct (aistudio env); cbn; split; congruence. }
  cbv zeta. revert Hstart. generalize (mount env).
  induction evs as [|ev evs IH]; intros w Hw; [exact Hw|].
  rewrite run_cons. apply IH. destruct Hw as [Hnone Hpend].
  destruct (key_step ev w) as [[Hk [Ha|[v Ha]]]|[Hk [v Ha]]]; split.
  - rewrite Ha, Hk. exact Hnone.
  - rewrite Hk. exact Hpend.
  - rewrite Ha. discriminate.
  - rewrite Hk. exact Hpend.
  - rewrite Ha. discriminate.
  - intros _. exact (Hpend Hk).
Qed.

(** X6: the first committed render shows the spinner in every environment.
    The effect of lines 54-71 then runs: outside the host it puts the form in
    its place at once; inside the host it asks [hasSelectedApiKey].  From
    then on the spinner is shown only while that answer is awaited, which
    happens inside the host only; the answer, whatever it is, ends it, and no
    event brings it back. *)
Theorem spinner_only_while_checking (evs : list Event) :
  renderContent (st firstRender) = SpinnerView /\
  mount env = checkKey env firstRender /\
  (aistudio env = false -> renderContent (st (mount env)) = FormView) /\
  let w := run env evs (mount env) in
  (renderContent (st w) = SpinnerView -> keyCheckPending w = true /\ aistudio env = true) /\
  (forall r, renderContent (st (step env (EvKeyChecked r) w)) <> SpinnerView) /\
  (forall ev, renderContent (st w) <> SpinnerView ->
              renderContent (st (step env ev w)) <> SpinnerView).
Proof.
  split; [reflexivity|]. split; [reflexivity|].
  split; [intros Hhost; unfold mount, checkKey; rewrite Hhost; reflexivity|].
  intros w.
  assert (Hview : forall s, renderContent s = SpinnerView <-> apiKeySelected s = None).
  { intros s. unfold renderContent. destruct (apiKeySelected s) as [[|]|];
      [destruct (isLoading s); [|destruct (bool_decide _)]| |]; split; congruence. }
  destruct (spinner_invariant evs) as [Hnone Hpend]. fold w in Hnone, Hpend.
  split; [|split].
  - intros Hs. apply Hview in Hs. split; [|apply Hpend]; apply Hnone, Hs.
  - intros r Hs. apply Hview in Hs.
    destruct (keyCheckPending w) eqn:Hp.
    + destruct (keyChecked_decides r w Hp) as [v Hv]. congruence.
    + destruct (spinner_invariant (evs ++ [EvKeyChecked r])) as [Hnone' _].
      unfold run in Hnone'. rewrite foldl_app in Hnone'. cbn [foldl] in Hnone'.
      fold (run env evs (mount env)) in Hnone'. fold w in Hnone'.
      specialize (Hnone' Hs).
      unfold step in Hnone'. rewrite keyCheckPending_commit in Hnone'.
      cbn [handle] in Hnone'. unfold handleKeyChecked in Hnone'. rewrite Hp in Hnone'.
      congruence.
  - intros ev Hw Hs. apply Hview in Hs. apply Hw, Hview.
    destruct (key_step ev w) as [[_ [Ha|[v Ha]]]|[_ [v Ha]]]; congruence.
Qed.

End Key.

Section KeyRequired.

Variable env : Env.

Lemma no_host_flags (ev : Event) (w : World) :
  aistudio env = false ->
  keyCheckPending w = false -> selectKeyPending w = 0 ->
  keyCheckPending (step env ev w) = false /\
  selectKeyPending (step env ev w) = 0 /\
  (apiKeySelected (st w) = Some false -> apiKeySelected (st (step env ev w)) = Some false).
Proof.
  intros Hhost Hk Hs. handler_cases ev; repeat split; intros; congruence.
Qed.

Lemma no_host_run (evs : list Event) (w : World) :
  aistudio env = false ->
  keyCheckPending w = false -> selectKeyPending w = 0 ->
  keyCheckPending (run env evs w) = false /\
  selectKeyPending (run env evs w) = 0 /\
  (apiKeySelected (st w) = Some false -> apiKeySelected (st (run env evs w)) = Some false).
Proof.
  intros Hhost. revert w. induction evs as [|ev evs IH]; intros w Hk Hs; [auto|].
  rewrite run_cons. destruct (no_host_flags ev w Hhost Hk Hs) as (Hk' & Hs' & Ha).
  destruct (IH _ Hk' Hs') as (Hk'' & Hs'' & Ha''). auto.
Qed.

(** X7: outside the host ([window.aistudio] absent), once a failure has set
    [apiKeySelected] to false the page shows the key-required view for good:
    whatever happens next the flag stays false, "Generate Video" is not
    offered, and "Select API Key" changes nothing. *)
Theorem key_required_is_final (evs evs' : list Event) :
  aistudio env = false ->
  let w := run env evs (mount env) in
  apiKeySelected (st w) = Some false ->
  let w' := run env evs' w in
  apiKeySelected (st w') = Some false /\
  renderContent (st w') = KeyRequiredView /\
  enabled EvGenerateClick (st w') = false /\
  enabled EvSelectKeyClick (st w') = true /\
  step env EvSelectKeyClick w' = w'.
Proof.
  intros Hhost w Hfalse w'.
  assert (Hmount : keyCheckPending (mount env) = false /\ selectKeyPending (mount env) = 0).
  { unfold mount, checkKey. rewrite Hhost. split; reflexivity. }
  destruct Hmount as [Hk0 Hs0].
  destruct (no_host_run evs _ Hhost Hk0 Hs0) as (Hk & Hs & _). fold w in Hk, Hs.
  destruct (no_host_run evs' w Hhost Hk Hs) as (_ & _ & Ha). fold w' in Ha.
  specialize (Ha Hfalse).
  assert (Hview : renderContent (st w') = KeyRequiredView).
  { unfold renderContent. rewrite Ha. reflexivity. }
  split; [exact Ha|]. split; [exact Hview|]. split; [|split].
  - unfold enabled, isFormView. rewrite Hview. reflexivity.
  - unfold enabled. rewrite Hview. reflexivity.
  - unfold step. cbn [handle]. unfold handleSelectKey. rewrite Hhost.
    apply commit_unchanged; reflexivity.
Qed.

(** What the state is after a failure that carries the entity-not-found
    text. *)
Lemma raise_auth_state (w : World) (ev : Event) (e : Thrown) :
  raises env w ev e ->
  Js.includes entityNotFound (errorMessageOf e) = true ->
  apiKeySelected (st (step env ev w)) = Some false /\
  error (st (step env ev w)) = Some authMessage /\
  isLoading (st (step env ev w)) = false.
Proof.
  intros Hr Hinc. destruct ev; simpl in Hr; try contradiction.
  - destruct Hr as ([file Hf] & Hp & Hctor).
    unfold step. rewrite st_commit. unfold handle, handleGenerateVideo.
    rewrite Hf, Hp, Hctor. cbn [negb].
    destruct (bool_decide (is_Some (capturedVideoUrl w)));
      rewrite st_catch, Hinc; repeat split.
  - destruct Hr as (t & Ht & Hres).
    rewrite (step_raise _ _ _ _ _ _ Ht Hres), st_setTasks, st_catch, Hinc. repeat split.
Qed.

(** X8: inside the host, a failure that carries "Requested entity was not
    found" sends the page to the key-required view, where only "Select API
    Key" is offered.  Once [openSelectKey] resolves the key is taken as
    selected without being checked and the form comes back, still showing
    the invalid-key error; if [openSelectKey] rejects, the key-required view
    stays. *)
Theorem invalid_key_recovery (w : World) (ev : Event) (e : Thrown) :
  raises env w ev e ->
  Js.includes entityNotFound (errorMessageOf e) = true ->
  aistudio env = true ->
  let w1 := step env ev w in
  let w2 := run env [EvSelectKeyClick; EvKeySelected (Returned tt)] w1 in
  renderContent (st w1) = KeyRequiredView /\
  enabled EvGenerateClick (st w1) = false /\
  enabled EvSelectKeyClick (st w1) = true /\
  apiKeySelected (st w2) = Some true /\
  error (st w2) = Some authMessage /\
  calls w2 = calls w1 ++ [CallOpenSelectKey] /\
  (generatedVideoUrl (st w1) = None -> renderContent (st w2) = FormView) /\
  (forall err, renderContent
                 (st (run env [EvSelectKeyClick; EvKeySelected (Threw err)] w1)) =
               KeyRequiredView).
Proof.
  intros Hr Hinc Hhost w1 w2.
  destruct (raise_auth_state w ev e Hr Hinc) as (Ha & He & Hl). fold w1 in Ha, He, Hl.
  assert (Hview : renderContent (st w1) = KeyRequiredView).
  { unfold renderContent. rewrite Ha. reflexivity. }
  assert (Hclick : step env EvSelectKeyClick w1 =
                   setSelectKeyPending (S (selectKeyPending w1)) (emit CallOpenSelectKey w1)).
  { unfold step. cbn [handle]. unfold handleSelectKey. rewrite Hhost.
    apply commit_unchanged; reflexivity. }
  assert (Hsel : forall r,
            st (run env [EvSelectKeyClick; EvKeySelected r] w1) =
            match r with
            | Returned _ => setApiKeySelected (Some true) (st w1)
            | Threw _ => st w1
            end /\
            calls (run env [EvSelectKeyClick; EvKeySelected r] w1) =
            calls w1 ++ [CallOpenSelectKey]).
  { intros r. rewrite !run_cons. cbn [run foldl]. rewrite Hclick.
    unfold step. cbn [handle]. unfold handleKeySelected.
    cbn [setSelectKeyPending selectKeyPending].
    destruct r; (rewrite commit_unchanged by reflexivity); split; reflexivity. }
  split; [exact Hview|]. split; [|split].
  - unfold enabled, isFormView. rewrite Hview. reflexivity.
  - unfold enabled. rewrite Hview. reflexivity.
  - destruct (Hsel (Returned tt)) as [Hst Hc]. fold w2 in Hst, Hc.
    split; [rewrite Hst; reflexivity|]. split; [rewrite Hst; exact He|].
    split; [exact Hc|]. split.
    + intros Hv. unfold renderContent. rewrite Hst. cbn. rewrite Hl, Hv. reflexivity.
    + intros err. destruct (Hsel (Threw err)) as [Hst' _]. rewrite Hst'. exact Hview.
Qed.


End KeyRequired.

Lemma no_host_uiRun (env : Env) (evs : list Event) (w : World) :
  aistudio env = false ->
  keyCheckPending w = false -> selectKeyPending w = 0 ->
  apiKeySelected (st w) = Some false ->
  apiKeySelected (st (uiRun env evs w)) = Some false.
Proof.
  intros Hhost. revert w. induction evs as [|ev evs IH]; intros w Hk Hs Ha; [exact Ha|].
  cbn [uiRun foldl]. fold (uiRun env evs (uiStep env ev w)). unfold uiStep.
  destruct (enabled ev (st w)); [|apply IH; assumption].
  destruct (no_host_flags env ev w Hhost Hk Hs) as (Hk' & Hs' & Ha'). apply IH; auto.
Qed.

(** C9 on the code: outside the host, the user chooses an image and clicks
    "Generate Video", and the service refuses the submission with
    "Requested entity was not found.".  The exception is caught and the
    loading flag is cleared, but no retry is possible: the page shows the
    key-required view, "Select API Key" changes nothing, and "Generate
    Video" is never offered again, whatever happens next. *)
Theorem refused_generation_is_a_dead_end :
  let w := uiRun Sample.env Sample.refused (mount Sample.env) in
  aistudio Sample.env = false /\
  allEnabled Sample.env Sample.refused (mount Sample.env) = true /\
  isLoading (st w) = false /\
  error (st w) = Some authMessage /\
  renderContent (st w) = KeyRequiredView /\
  step Sample.env EvSelectKeyClick w = w /\
  (forall evs, enabled EvGenerateClick (st (uiRun Sample.env evs w)) = false) /\
  (forall evs, enabled EvGenerateClick (st (run Sample.env evs w)) = false).
Proof.
  cbv zeta. set (w := uiRun Sample.env Sample.refused (mount Sample.env)).
  assert (Hk : keyCheckPending w = false) by (vm_compute; reflexivity).
  assert (Hs : selectKeyPending w = 0) by (vm_compute; reflexivity).
  assert (Ha : apiKeySelected (st w) = Some false) by (vm_compute; reflexivity).
  assert (Hoff : forall s, apiKeySelected s = Some false -> enabled EvGenerateClick s = false).
  { intros s Hs'. unfold enabled, isFormView, renderContent. rewrite Hs'. reflexivity. }
  split; [reflexivity|]. split; [vm_compute; reflexivity|].
  split; [vm_compute; reflexivity|]. split; [vm_compute; reflexivity|].
  split; [vm_compute; reflexivity|]. split; [vm_compute; reflexivity|]. split.
  - intros evs. apply Hoff. apply no_host_uiRun; [reflexivity|assumption..].
  - intros evs. apply Hoff.
    destruct (no_host_run Sample.env evs w eq_refl Hk Hs) as (_ & _ & Hstay).
    exact (Hstay Ha).
Qed.

(** ** "Create Another" (lines 222-231) and the cleanup of lines 86-93 *)

Lemma calls_commit (prev : AppState) (w : World) :
  calls (commit prev w) =
  if bool_decide (generatedVideoUrl prev = generatedVideoUrl (st w)) then calls w
  else match generatedVideoUrl prev with
       | Some v => calls w ++ [CallRevokeObjectURL v]
       | None => calls w
       end.
Proof.
  unfold commit, recapture, videoUrlCleanup.
  repeat case_bool_decide; try reflexivity; destruct (generatedVideoUrl prev); reflexivity.
Qed.

Section Another.

Variable env : Env.

(** X9: "Create Another" empties the image, the preview and the video and
    keeps the prompt, the aspect ratio and the rest of the state; the URL of
    the video is revoked, so no URL of the result slot is left alive; the
    form comes back with "Generate Video" disabled until an image is
    chosen. *)
Theorem create_another_resets (w : World) :
  registryOk w ->
  let w' := step env EvCreateAnotherClick w in
  st w' = setImagePreview None (setImageFile None (setGeneratedVideoUrl None (st w))) /\
  calls w' = calls w ++ match generatedVideoUrl (st w) with
                        | Some url => [CallRevokeObjectURL url]
                        | None => []
                        end /\
  liveIn Result w' = [] /\
  isGenerateDisabled (st w') = true /\
  (renderContent (st w) = VideoView ->
   renderContent (st w') = FormView /\ enabled EvGenerateClick (st w') = false).
Proof.
  intros Hok w'.
  assert (Hst : st w' = setImagePreview None (setImageFile None (setGeneratedVideoUrl None (st w)))).
  { unfold w', step. rewrite st_commit. reflexivity. }
  assert (Hdis : isGenerateDisabled (st w') = true).
  { rewrite Hst. unfold isGenerateDisabled. cbn. rewrite orb_true_r. reflexivity. }
  split; [exact Hst|]. split; [|split; [|split; [exact Hdis|]]].
  - unfold w', step. rewrite calls_commit. cbn [handle]. unfold handleCreateAnother. cbn.
    destruct (generatedVideoUrl (st w)) as [url|].
    + rewrite bool_decide_eq_false_2 by discriminate. reflexivity.
    + rewrite bool_decide_eq_true_2 by reflexivity. symmetry. apply app_nil_r.
  - destruct (registryOk_step env EvCreateAnotherClick w Hok) as (Hres & _).
    fold w' in Hres. unfold liveIn. rewrite Hres, Hst. reflexivity.
  - intros Hview. split; [|unfold enabled; rewrite Hdis; apply andb_false_r].
    unfold renderContent in Hview |- *. rewrite Hst. cbn.
    destruct (apiKeySelected (st w)) as [[|]|]; try discriminate.
    destruct (isLoading (st w)); [discriminate|reflexivity].
Qed.

End Another.

(** ** The page as the user can drive it *)

Section Page.

Variable env : Env.

Lemma uiRun_snoc (evs : list Event) (ev : Event) (w : World) :
  uiRun env (evs ++ [ev]) w = uiStep env ev (uiRun env evs w).
Proof. unfold uiRun. rewrite foldl_app. reflexivity. Qed.

Lemma enabled_generate (s : AppState) :
  enabled EvGenerateClick s = true ->
  (exists file, imageFile s = Some file) /\ Js.truthy (prompt s) = true /\
  isLoading s = false /\ generatedVideoUrl s = None /\ apiKeySelected s = Some true.
Proof.
  unfold enabled, isGenerateDisabled, isFormView, renderContent.
  destruct (apiKeySelected s) as [[|]|]; try discriminate.
  destruct (isLoading s); [discriminate|].
  destruct (generatedVideoUrl s) as [u|]; [discriminate|].
  destruct (imageFile s) as [file|]; [|discriminate].
  destruct (Js.truthy (prompt s)); [|discriminate].
  intros _. repeat split. exists file. reflexivity.
Qed.

(** While the loading flag is up, an invocation is suspended. *)
Lemma busy_step (ev : Event) (w : World) :
  (isLoading (st w) = true -> exists i t, tasks w !! i = Some t /\ inFlight t = true) ->
  isLoading (st (step env ev w)) = true ->
  exists i t, tasks (step env ev w) !! i = Some t /\ inFlight t = true.
Proof.
  intros Hbusy.
  destruct ev as [r| |r|file|value|ratio| | | |i s];
    try (match goal with
         | |- isLoading (st (step env ?e w)) = true -> _ =>
             destruct (quiet_handlers env e w I) as [Ht Hl]; rewrite Ht, Hl; exact Hbusy
         end).
  - destruct (imageFile (st w)) as [file|] eqn:Hf;
      [destruct (Js.truthy (prompt (st w))) eqn:Hp|].
    + pose proof (generate_click env w file Hf Hp) as Hstart. cbv zeta in Hstart.
      destruct (newGoogleGenAI env (API_KEY env)) as [e|].
      * destruct Hstart as (Hl & _). rewrite Hl. discriminate.
      * destruct Hstart as (_ & _ & Htasks). intros _. rewrite Htasks.
        eexists (length (tasks w)), _. split; [apply list_lookup_middle; reflexivity|].
        reflexivity.
    + rewrite (generate_invalid env w (or_intror Hp)). exact Hbusy.
    + rewrite (generate_invalid env w (or_introl Hf)). exact Hbusy.
  - destruct (tasks w !! i) as [t|] eqn:Ht.
    + destruct (resume env t s) as [[c p|blob|e]|] eqn:Hres.
      * rewrite (step_suspend _ _ _ _ _ _ _ Ht Hres). cbn [setTasks st emit tasks].
        intros Hl. destruct (Hbusy Hl) as (j & tj & Hj & Hfj).
        destruct (decide (i = j)) as [<-|Hne].
        -- exists i, (setPhase p t). split; [apply (lookup_insert_same _ _ _ _ Ht)|].
           apply (suspend_inFlight _ _ _ _ _ Hres).
        -- exists j, tj. split; [|exact Hfj].
           rewrite list_lookup_insert_ne by exact Hne. exact Hj.
      * rewrite (st_step_complete _ _ _ _ _ _ Ht Hres). discriminate.
      * rewrite (step_raise _ _ _ _ _ _ Ht Hres), st_setTasks, st_catch.
        destruct (Js.includes _ _); discriminate.
      * rewrite (step_settle_ignored _ _ _ _ _ Ht Hres). exact Hbusy.
    + unfold step, handle, handleSettle. rewrite Ht.
      rewrite commit_unchanged by reflexivity. exact Hbusy.
Qed.

(** X10: on the page as the user can drive it, the loading view is shown
    exactly while an invocation of [handleGenerateVideo] is suspended: the
    flag is never left up with nothing pending, and never down with a
    generation still running. *)
Theorem loading_iff_in_flight (evs : list Event) :
  let w := uiRun env evs (mount env) in
  isLoading (st w) = true <-> exists i t, tasks w !! i = Some t /\ inFlight t = true.
Proof.
  intros w. split.
  - subst w. induction evs as [|ev evs IH] using rev_ind.
    + unfold mount, checkKey. destruct (aistudio env); discriminate.
    + rewrite uiRun_snoc. unfold uiStep.
      destruct (enabled ev (st (uiRun env evs (mount env)))); [|exact IH].
      apply busy_step, IH.
  - intros (i & t & Ht & Hf).
    destruct (loadingOk_uiRun env evs _ (loadingOk_mount env)) as [Hidle _]. fold w in Hidle.
    destruct (isLoading (st w)); [reflexivity|].
    rewrite (Hidle eq_refl _ _ Ht) in Hf. discriminate.
Qed.

Lemma error_step (ev : Event) (w : World) :
  match ev with EvGenerateClick => False | _ => True end ->
  error (st (step env ev w)) = error (st w) \/
  error (st (step env ev w)) = Some authMessage \/
  error (st (step env ev w)) = Some keyCheckMessage \/
  exists m, error (st (step env ev w)) = Some ("Failed to generate video: " +:+ m).
Proof.
  intros Hev. destruct ev as [r| |r|file|value|ratio| | | |i s]; try contradiction;
    try (left; unfold step; rewrite st_commit; cbn [handle];
         first [ reflexivity
               | unfold handleSelectKey; destruct (aistudio env); reflexivity
               | unfold handleKeySelected; destruct (selectKeyPending w), r; reflexivity
               | unfold handleImageChange; destruct file; [|reflexivity];
                 destruct (bool_decide _); reflexivity
               | unfold handleInterval; destruct (isLoading (st w)); reflexivity ]).
  - unfold step. rewrite st_commit. cbn [handle]. unfold handleKeyChecked.
    destruct (keyCheckPending w); [|left; reflexivity].
    destruct r; [left|right; right; left]; reflexivity.
  - destruct (tasks w !! i) as [t|] eqn:Ht.
    + destruct (resume env t s) as [[c p|blob|e]|] eqn:Hres.
      * rewrite (step_suspend _ _ _ _ _ _ _ Ht Hres). left. reflexivity.
      * rewrite (st_step_complete _ _ _ _ _ _ Ht Hres). left. reflexivity.
      * rewrite (step_raise _ _ _ _ _ _ Ht Hres), st_setTasks, st_catch.
        destruct (Js.includes _ _); [right; left; reflexivity|].
        right. right. right. eexists. reflexivity.
      * rewrite (step_settle_ignored _ _ _ _ _ Ht Hres). left. reflexivity.
    + unfold step, handle, handleSettle. rewrite Ht.
      rewrite commit_unchanged by reflexivity. left. reflexivity.
Qed.

(** X11: "Generate Video" can be clicked only with an image and a non-empty
    prompt on a page that is not loading, so on the page as the user can
    drive it the validation of line 116 never fails: the message "Please
    upload an image and provide a prompt." is never shown. *)
Theorem validation_never_fails_on_page (evs : list Event) :
  let w := uiRun env evs (mount env) in
  error (st w) <> Some validationMessage /\
  (enabled EvGenerateClick (st w) = true ->
   step env EvGenerateClick w <> setState (setError (Some validationMessage)) w /\
   exists file, imageFile (st w) = Some file /\ Js.truthy (prompt (st w)) = true).
Proof.
  intros w.
  assert (Herr : error (st w) <> Some validationMessage).
  { subst w. induction evs as [|ev evs IH] using rev_ind.
    - unfold mount, checkKey. destruct (aistudio env); discriminate.
    - rewrite uiRun_snoc. unfold uiStep.
      set (w := uiRun env evs (mount env)) in *.
      destruct (enabled ev (st w)) eqn:Hen; [|exact IH].
      assert (Hcases : error (st (step env ev w)) = error (st w) \/
                       error (st (step env ev w)) = None \/
                       error (st (step env ev w)) = Some authMessage \/
                       error (st (step env ev w)) = Some keyCheckMessage \/
                       exists m, error (st (step env ev w)) =
                                 Some ("Failed to generate video: " +:+ m)).
      { assert (Hg : ev = EvGenerateClick \/
                     match ev with EvGenerateClick => False | _ => True end)
          by (destruct ev; auto).
        destruct Hg as [->|Hq].
        - destruct (enabled_generate _ Hen) as ([file Hf] & Hp & _).
          pose proof (generate_click env w file Hf Hp) as Hstart. cbv zeta in Hstart.
          destruct (newGoogleGenAI env (API_KEY env)) as [e|].
          + destruct Hstart as (_ & _ & [He|He]); [right; right; left; exact He|].
            right. right. right. right. eexists. exact He.
          + destruct Hstart as (_ & He & _). right. left. exact He.
        - destruct (error_step ev w Hq) as [He|[He|[He|He]]].
          + left. exact He.
          + right. right. left. exact He.
          + right. right. right. left. exact He.
          + right. right. right. right. exact He. }
      destruct Hcases as [He|[He|[He|[He|[m He]]]]]; rewrite He;
        [exact IH|discriminate..]. }
  split; [exact Herr|]. intros Hen.
  destruct (enabled_generate _ Hen) as ([file Hf] & Hp & _).
  split; [|exists file; split; assumption].
  intros Heq. apply (f_equal (fun x => error (st x))) in Heq. cbn in Heq.
  pose proof (generate_click env w file Hf Hp) as Hstart. cbv zeta in Hstart.
  destruct (newGoogleGenAI env (API_KEY env)) as [e|].
  - destruct Hstart as (_ & _ & [He|He]); rewrite He in Heq; discriminate.
  - destruct Hstart as (_ & He & _). rewrite He in Heq. discriminate.
Qed.

End Page.

(** ** The closure of [handleGenerateVideo] (lines 115-126 and 175) *)

Section Closure.

Variable env : Env.

Lemma captured_handle (ev : Event) (w : World) :
  capturedVideoUrl (handle env ev w) = capturedVideoUrl w.
Proof.
  destruct ev; cbn [handle];
    unfold handleKeyChecked, handleSelectKey, handleKeySelected, handleImageChange,
      handleGenerateVideo, handleCreateAnother, handleInterval, handleSettle, settle,
      finallyBlock, catchBlock;
    repeat case_match; reflexivity.
Qed.

Lemma captured_step (ev : Event) (w : World) :
  capturedVideoUrl (step env ev w) =
  if bool_decide (sameDeps (st w) (st (handle env ev w))) then capturedVideoUrl w
  else generatedVideoUrl (st (handle env ev w)).
Proof.
  unfold step, commit, recapture, sameDeps.
  assert (Hst : st (videoUrlCleanup (st w) (handle env ev w)) = st (handle env ev w)).
  { unfold videoUrlCleanup. case_bool_decide; [reflexivity|].
    destruct (generatedVideoUrl (st w)); reflexivity. }
  assert (Hc : capturedVideoUrl (videoUrlCleanup (st w) (handle env ev w)) = capturedVideoUrl w).
  { rewrite <- (captured_handle ev w). unfold videoUrlCleanup.
    case_bool_decide; [reflexivity|]. destruct (generatedVideoUrl (st w)); reflexivity. }
  rewrite Hst. case_bool_decide; [exact Hc|reflexivity].
Qed.

Lemma formView_no_video (s : AppState) : isFormView s = true -> generatedVideoUrl s = None.
Proof.
  unfold isFormView, renderContent.
  destruct (apiKeySelected s) as [[|]|]; try discriminate.
  destruct (isLoading s); [discriminate|].
  destruct (generatedVideoUrl s); [discriminate|reflexivity].
Qed.

(** A handler the page offers changes a dependency of [useCallback] only
    when it leaves no video in the state. *)
Lemma deps_or_no_video (ev : Event) (w : World) :
  enabled ev (st w) = true ->
  sameDeps (st w) (st (handle env ev w)) \/ generatedVideoUrl (st (handle env ev w)) = None.
Proof.
  intros Hen. destruct ev as [r| |r|file|value|ratio| | | |i s]; cbn [handle].
  - left. unfold handleKeyChecked. destruct (keyCheckPending w), r; repeat split.
  - left. unfold handleSelectKey. destruct (aistudio env); repeat split.
  - left. unfold handleKeySelected. destruct (selectKeyPending w), r; repeat split.
  - cbn [enabled] in Hen. apply andb_true_iff in Hen as [Hform _].
    pose proof (formView_no_video _ Hform) as Hv.
    unfold handleImageChange. destruct file; [|left; repeat split].
    right. destruct (bool_decide _); [reflexivity|exact Hv].
  - right. exact (formView_no_video _ Hen).
  - right. exact (formView_no_video _ Hen).
  - left. unfold handleGenerateVideo.
    destruct (imageFile (st w)); [|repeat split].
    destruct (negb (Js.truthy (prompt (st w)))); [repeat split|].
    destruct (newGoogleGenAI env (API_KEY env)).
    + rewrite st_catch. destruct (bool_decide _), (Js.includes _ _); repeat split.
    + destruct (bool_decide _); repeat split.
  - right. reflexivity.
  - left. unfold handleInterval. destruct (isLoading (st w)); repeat split.
  - left. unfold handleSettle. destruct (tasks w !! i) as [t|]; [|repeat split].
    destruct (resume env t s) as [[c p|blob|e]|]; [| | |repeat split]; unfold settle.
    + repeat split.
    + repeat split.
    + rewrite st_setTasks, st_catch. destruct (Js.includes _ _); repeat split.
Qed.

(** X12: on the page as the user can drive it, the memoized
    [handleGenerateVideo] never holds a video URL in its closure, although
    [generatedVideoUrl] is missing from its dependencies: [if
    (generatedVideoUrl)] of line 123 is never true there, and the button is
    offered only when the state holds no video either. *)
Theorem closure_holds_no_video (evs : list Event) :
  let w := uiRun env evs (mount env) in
  capturedVideoUrl w = None /\
  (enabled EvGenerateClick (st w) = true -> generatedVideoUrl (st w) = None).
Proof.
  intros w. split.
  - subst w. induction evs as [|ev evs IH] using rev_ind.
    + unfold mount, checkKey. destruct (aistudio env); reflexivity.
    + unfold uiRun. rewrite foldl_app. cbn [foldl]. fold (uiRun env evs (mount env)).
      unfold uiStep. destruct (enabled ev (st (uiRun env evs (mount env)))) eqn:Hen; [|exact IH].
      rewrite captured_step. case_bool_decide as Hdeps; [exact IH|].
      destruct (deps_or_no_video ev _ Hen) as [Hsame|Hnone]; [contradiction|exact Hnone].
  - intros Hen. cbn [enabled] in Hen. apply andb_true_iff in Hen as [Hform _].
    exact (formView_no_video _ Hform).
Qed.

(** X13: choosing an image stores the file, makes one object URL for its
    preview and leaves no video in the state; the file input is no longer
    offered afterwards.  Closing the file dialog without a file changes
    nothing. *)
Theorem image_is_chosen (w : World) (file : File) :
  registryOk w ->
  let w' := step env (EvImageChange (Some file)) w in
  imageFile (st w') = Some file /\
  imagePreview (st w') = Some (nextUrlId w) /\
  {| urlId := nextUrlId w; urlSlot := Preview; urlBlob := fileData file |} ∈ objectUrls w' /\
  generatedVideoUrl (st w') = None /\
  liveIn Result w' = [] /\
  (forall other, enabled (EvImageChange other) (st w') = false) /\
  step env (EvImageChange None) w = w.
Proof.
  intros Hok w'.
  assert (Hst : st w' = setImagePreview (Some (nextUrlId w))
                          (setImageFile (Some file) (setGeneratedVideoUrl None (st w)))).
  { unfold w', step. rewrite st_commit. cbn [handle]. unfold handleImageChange.
    destruct (bool_decide (is_Some (generatedVideoUrl (st w)))) eqn:Hb; [reflexivity|].
    cbn. f_equal. f_equal. symmetry. apply setGeneratedVideoUrl_same.
    destruct (generatedVideoUrl (st w)); [|reflexivity].
    apply bool_decide_eq_false in Hb. exfalso. apply Hb. eexists. reflexivity. }
  split; [rewrite Hst; reflexivity|]. split; [rewrite Hst; reflexivity|].
  split; [|split; [rewrite Hst; reflexivity|split; [|split]]].
  - unfold w', step. rewrite objectUrls_commit. cbn [handle]. unfold handleImageChange.
    assert (Hin : {| urlId := nextUrlId w; urlSlot := Preview; urlBlob := fileData file |}
                  ∈ objectUrls w ++ [{| urlId := nextUrlId w; urlSlot := Preview;
                                        urlBlob := fileData file |}]).
    { apply elem_of_app. right. apply list_elem_of_here. }
    pose proof (registry_current) as Hcur. unfold registryOk in Hok.
    destruct (generatedVideoUrl (st w)) as [v|] eqn:Hv; cbn.
    + apply list_elem_of_filter. split; [|exact Hin].
      cbn. specialize (Hcur _ _ _ Hok). lia.
    + destruct (bool_decide _); exact Hin.
  - destruct (registryOk_step env (EvImageChange (Some file)) w Hok) as (Hres & _).
    fold w' in Hres. unfold liveIn. rewrite Hres, Hst. reflexivity.
  - intros other. cbn [enabled]. rewrite Hst. cbn. apply andb_false_r.
  - unfold step. cbn [handle handleImageChange]. apply commit_unchanged; reflexivity.
Qed.

End Closure.

(** ** The loop that is never entered (lines 131-152) *)

Section Immediate.

Variable env : Env.

(** X14: when the submission itself answers with an operation that is done
    and carries a video URI, the loop body never runs: no timer is set, no
    poll is made, and the fetch of the URI, with the API key appended as
    [&key=], is the next call. *)
Theorem done_at_submission
    (w : World) (i : nat) (t : Task) (operation : Operation) (u k : string) :
  tasks w !! i = Some t ->
  phase t = AwaitSubmit ->
  isDone operation = true ->
  videoUriOf operation = Some u -> Js.truthy u = true ->
  API_KEY env = Some k -> Js.truthy k = true ->
  let w' := step env (EvSettle i (Submitted (Returned operation))) w in
  calls w' = calls w ++ [CallFetch (u +:+ "&key=" +:+ k)] /\
  tasks w' !! i = Some (setPhase AwaitFetch t) /\
  st w' = st w.
Proof.
  intros Ht Hp Hdone Hu Htu Hk Htk w'.
  assert (Hr : resume env t (Submitted (Returned operation)) =
               Some (Suspend (CallFetch (u +:+ "&key=" +:+ k)) AwaitFetch)).
  { unfold resume, whileLoop. rewrite Hp, Hdone. cbn [negb]. f_equal.
    apply afterLoop_fetch; assumption. }
  unfold w'. rewrite (step_suspend _ _ _ _ _ _ _ Ht Hr).
  split; [reflexivity|]. split; [|reflexivity].
  apply (lookup_insert_same _ _ _ _ Ht).
Qed.

End Immediate.

(** ** The further properties on the sample session *)

(** The sample click, answered by the data URL of the photo. *)
Lemma request_is_submitted_witness :
  let w := Sample.chosen Sample.env in
  let w' := run Sample.env
              [ EvGenerateClick;
                EvSettle 0 (Encoded (Loaded (dataUrlOf "image/jpeg" "SlBFRy0x"))) ] w in
  calls w' =
    calls w ++
    [ CallReadAsDataURL Sample.photo;
      CallGenerateVideos
        {| model := "veo-3.1-fast-generate-preview";
           paramPrompt := prompt initialState;
           imageBytes := Some "SlBFRy0x";
           mimeType := "image/jpeg";
           numberOfVideos := 1;
           resolution := "720p";
           paramAspectRatio := Ratio16x9 |} ].
Proof.
  cbv zeta.
  assert (Hf : imageFile (st (Sample.chosen Sample.env)) = Some Sample.photo)
    by (vm_compute; reflexivity).
  assert (Hp : Js.truthy (prompt (st (Sample.chosen Sample.env))) = true)
    by (vm_compute; reflexivity).
  assert (Hv : generatedVideoUrl (st (Sample.chosen Sample.env)) = None)
    by (vm_compute; reflexivity).
  pose proof (request_is_submitted Sample.env (Sample.chosen Sample.env) Sample.photo
                "image/jpeg" "SlBFRy0x" Hf Hp eq_refl Hv eq_refl eq_refl) as H.
  cbv zeta in H. destruct H as (Hc & _).
  exact Hc.
Defined.

(** The sample click, answered by a failed read. *)
Lemma unreadable_image_witness :
  let w := Sample.chosen Sample.env in
  let w' := run Sample.env [EvGenerateClick; EvSettle 0 (Encoded ReadFailed)] w in
  error (st w') = Some "Failed to generate video: An unknown error occurred." /\
  isLoading (st w') = false.
Proof.
  cbv zeta.
  assert (Hf : imageFile (st (Sample.chosen Sample.env)) = Some Sample.photo)
    by (vm_compute; reflexivity).
  assert (Hp : Js.truthy (prompt (st (Sample.chosen Sample.env))) = true)
    by (vm_compute; reflexivity).
  assert (Hv : generatedVideoUrl (st (Sample.chosen Sample.env)) = None)
    by (vm_compute; reflexivity).
  pose proof (unreadable_image Sample.env (Sample.chosen Sample.env) Sample.photo
                Hf Hp eq_refl Hv) as H.
  cbv zeta in H. destruct H as (_ & He & Hl & _).
  split; [exact He|exact Hl].
Defined.

(** Five firings of the interval while the sample generation is encoding. *)
Lemma interval_has_period_five_witness :
  run Sample.env (replicate 5 EvInterval) (Sample.encoding Sample.env) =
  Sample.encoding Sample.env.
Proof.
  assert (Hl : isLoading (st (Sample.encoding Sample.env)) = true)
    by (vm_compute; reflexivity).
  assert (Hs : loadingMessage (st (Sample.encoding Sample.env)) =
               Some "Warming up the creative engines...") by (vm_compute; reflexivity).
  assert (Hm : "Warming up the creative engines..." ∈ loadingMessages) by constructor.
  exact (proj2 (interval_has_period_five Sample.env (Sample.encoding Sample.env) _ Hl Hs Hm)).
Defined.

(** Outside the host, after the refused generation. *)
Lemma key_required_is_final_witness :
  let w := run Sample.env Sample.refused (mount Sample.env) in
  let w' := run Sample.env [EvSelectKeyClick; EvKeySelected (Returned tt); EvInterval] w in
  apiKeySelected (st w) = Some false /\
  renderContent (st w') = KeyRequiredView.
Proof.
  cbv zeta.
  assert (Ha : apiKeySelected (st (run Sample.env Sample.refused (mount Sample.env))) = Some false)
    by (vm_compute; reflexivity).
  pose proof (key_required_is_final Sample.env Sample.refused
                [EvSelectKeyClick; EvKeySelected (Returned tt); EvInterval] eq_refl) as H.
  cbv zeta in H. destruct (H Ha) as (_ & Hview & _).
  split; [exact Ha|exact Hview].
Defined.

(** Inside the host, the submission refused with the entity-not-found
    text. *)
Lemma invalid_key_recovery_witness :
  let gone := EvSettle 0 (Submitted (Threw (ThrownError "Requested entity was not found."))) in
  let w1 := step Sample.envStudio gone Sample.studioSubmitting in
  let w2 := run Sample.envStudio [EvSelectKeyClick; EvKeySelected (Returned tt)] w1 in
  renderContent (st w1) = KeyRequiredView /\
  renderContent (st w2) = FormView /\
  error (st w2) = Some authMessage.
Proof.
  cbv zeta.
  assert (Hr : raises Sample.envStudio Sample.studioSubmitting
                 (EvSettle 0 (Submitted (Threw (ThrownError "Requested entity was not found."))))
                 (ThrownError "Requested entity was not found.")).
  { cbn [raises]. eexists. split; vm_compute; reflexivity. }
  assert (Hinc : Js.includes entityNotFound
                   (errorMessageOf (ThrownError "Requested entity was not found.")) = true)
    by (vm_compute; reflexivity).
  pose proof (invalid_key_recovery Sample.envStudio _ _ _ Hr Hinc eq_refl) as H.
  cbv zeta in H. destruct H as (Hview & _ & _ & _ & He & _ & Hform & _).
  split; [exact Hview|]. split; [|exact He].
  apply Hform. vm_compute. reflexivity.
Defined.

Lemma sample_ready_registryOk (e : Env) : registryOk (Sample.ready e).
Proof.
  unfold Sample.ready, Sample.reading, Sample.fetching.
  do 3 apply registryOk_step. apply sample_polling_registryOk.
Qed.

(** "Create Another" after the sample generation. *)
Lemma create_another_resets_witness :
  let w := Sample.ready Sample.env in
  let w' := step Sample.env EvCreateAnotherClick w in
  renderContent (st w) = VideoView /\
  renderContent (st w') = FormView /\
  liveIn Result w' = [] /\
  calls w' = calls w ++ [CallRevokeObjectURL 1].
Proof.
  cbv zeta.
  assert (Hview : renderContent (st (Sample.ready Sample.env)) = VideoView)
    by (vm_compute; reflexivity).
  pose proof (create_another_resets Sample.env (Sample.ready Sample.env)
                (sample_ready_registryOk Sample.env)) as H.
  cbv zeta in H. destruct H as (_ & Hc & Hres & _ & Hform).
  split; [exact Hview|]. split; [exact (proj1 (Hform Hview))|]. split; [exact Hres|].
  rewrite Hc. vm_compute. reflexivity.
Defined.

(** The first image chosen on the fresh page. *)
Lemma image_is_chosen_witness :
  let w' := step Sample.env (EvImageChange (Some Sample.photo)) (mount Sample.env) in
  imageFile (st w') = Some Sample.photo /\
  imagePreview (st w') = Some 0 /\
  enabled (EvImageChange (Some Sample.photo2)) (st w') = false.
Proof.
  cbv zeta.
  pose proof (image_is_chosen Sample.env (mount Sample.env) Sample.photo
                (registryOk_mount Sample.env)) as H.
  cbv zeta in H. destruct H as (Hf & Hp & _ & _ & _ & Hen & _).
  split; [exact Hf|]. split; [exact Hp|exact (Hen _)].
Defined.

(** The spinner of the page inside the host, before the key check settles,
    and the form outside the host. *)
Lemma spinner_only_while_checking_witness :
  renderContent (st (mount Sample.envStudio)) = SpinnerView /\
  keyCheckPending (mount Sample.envStudio) = true /\
  renderContent (st (mount Sample.env)) = FormView.
Proof.
  assert (Hs : renderContent (st (mount Sample.envStudio)) = SpinnerView)
    by (vm_compute; reflexivity).
  pose proof (spinner_only_while_checking Sample.envStudio []) as H.
  cbv zeta in H. destruct H as (_ & _ & _ & Hpend & _).
  pose proof (spinner_only_while_checking Sample.env []) as H'.
  cbv zeta in H'. destruct H' as (_ & _ & Hform & _).
  split; [exact Hs|]. split; [exact (proj1 (Hpend Hs))|exact (Hform eq_refl)].
Defined.

(** The button of the page with the photo chosen. *)
Lemma validation_never_fails_on_page_witness :
  let w := uiRun Sample.env [EvImageChange (Some Sample.photo)] (mount Sample.env) in
  enabled EvGenerateClick (st w) = true /\
  exists file, imageFile (st w) = Some file /\ Js.truthy (prompt (st w)) = true.
Proof.
  cbv zeta.
  assert (Hen : enabled EvGenerateClick
                  (st (uiRun Sample.env [EvImageChange (Some Sample.photo)] (mount Sample.env)))
                = true) by (vm_compute; reflexivity).
  pose proof (validation_never_fails_on_page Sample.env [EvImageChange (Some Sample.photo)]) as H.
  cbv zeta in H. destruct H as (_ & Hclick).
  split; [exact Hen|exact (proj2 (Hclick Hen))].
Defined.

(** The closure on the page with the photo chosen. *)
Lemma closure_holds_no_video_witness :
  let w := uiRun Sample.env [EvImageChange (Some Sample.photo)] (mount Sample.env) in
  enabled EvGenerateClick (st w) = true /\ generatedVideoUrl (st w) = None.
Proof.
  cbv zeta.
  assert (Hen : enabled EvGenerateClick
                  (st (uiRun Sample.env [EvImageChange (Some Sample.photo)] (mount Sample.env)))
                = true) by (vm_compute; reflexivity).
  pose proof (closure_holds_no_video Sample.env [EvImageChange (Some Sample.photo)]) as H.
  cbv zeta in H. destruct H as (_ & Hv).
  split; [exact Hen|exact (Hv Hen)].
Defined.

(** The sample submission answered by the finished operation. *)
Lemma done_at_submission_witness :
  let w := Sample.submitting Sample.env in
  let w' := step Sample.env (EvSettle 0 (Submitted (Returned Sample.finished))) w in
  calls w' = calls w ++ [CallFetch "https://video/1?alt=media&key=k"].
Proof.
  cbv zeta.
  assert (Ht : tasks (Sample.submitting Sample.env) !! 0 =
               Some {| closureFile := Sample.photo; closurePrompt := prompt initialState;
                       closureAspect := Ratio16x9; phase := AwaitSubmit |})
    by (vm_compute; reflexivity).
  pose proof (done_at_submission Sample.env (Sample.submitting Sample.env) 0 _
                Sample.finished "https://video/1?alt=media" "k"
                Ht eq_refl eq_refl eq_refl eq_refl eq_refl eq_refl) as H.
  cbv zeta in H. destruct H as (Hc & _).
  exact Hc.
Defined.

